(** * AbstractGame: the rule engine of the cchess board

    A shallow embedding of [public/util/AbstractGame.ts] and the properties
    its specification states about it.

    Modelling conventions.
    - A JavaScript number that the class computes is either an integer or
      [NaN] ([parseInt] and [charCodeAt] produce nothing else): type [num].
    - A value read out of the layout is a number or [undefined]:
      [option Z], with [None] for [undefined].  Layout cells are integers
      (the piece encodings [team * 10 + type]).
    - A row of the layout is a JavaScript array, that is an object whose
      properties are keyed by the printed index: a finite map from [num]
      to cells.  A property that holds [undefined] and a property that is
      absent read the same everywhere in the class, so the map identifies
      them.
    - A move string is a sequence of UTF-16 code units; the model covers
      the code units below 256, held in a Rocq [string].
    - Methods run in a small monad that threads the game object, collects
      the lines written to the console, and propagates a thrown
      exception. *)

From Stdlib Require Import ZArith String Ascii List Lia DecimalString.
From stdpp Require Import base decidable countable gmap list strings.
Import ListNotations.

Local Open Scope string_scope.
Local Open Scope Z_scope.

(** ** JavaScript numbers, as far as the class uses them *)

Module JS.

Inductive num : Type :=
  | NaN
  | Num (z : Z).

Definition num_to_option (n : num) : option Z :=
  match n with NaN => None | Num z => Some z end.

Definition num_of_option (o : option Z) : num :=
  match o with None => NaN | Some z => Num z end.

#[global] Instance num_eq_dec : EqDecision num.
Proof. solve_decision. Defined.

#[global] Instance num_countable : Countable num.
Proof.
  apply (inj_countable' num_to_option num_of_option).
  intros []; reflexivity.
Defined.

(** [a - b] *)
Definition sub (a b : num) : num :=
  match a, b with
  | Num x, Num y => Num (x - y)
  | _, _ => NaN
  end.

(** [a * b] *)
Definition mul (a b : num) : num :=
  match a, b with
  | Num x, Num y => Num (x * y)
  | _, _ => NaN
  end.

(** [a > b]: false as soon as one side is [NaN] *)
Definition gt (a b : num) : bool :=
  match a, b with
  | Num x, Num y => y <? x
  | _, _ => false
  end.

(** [a !== b] on numbers: [NaN] differs from everything, itself included *)
Definition strict_ne (a b : num) : bool :=
  match a, b with
  | Num x, Num y => negb (x =? y)
  | _, _ => true
  end.

(** [a === b] on numbers *)
Definition strict_eq (a b : num) : bool := negb (strict_ne a b).

(** Decimal rendering of an integer, as string concatenation prints it
    (exact below 10^21, far above anything the class prints). *)
Definition Z_to_string (z : Z) : string :=
  NilZero.string_of_int (Z.to_int z).

(** [String(n)] *)
Definition to_string (n : num) : string :=
  match n with
  | NaN => "NaN"
  | Num z => Z_to_string z
  end.

(** [Math.floor(v / 10)] for a value read from the layout *)
Definition floor_div10 (v : option Z) : num :=
  match v with
  | Some z => Num (z / 10)
  | None => NaN
  end.

(** [v % 10]: the remainder takes the sign of the dividend *)
Definition rem10 (v : option Z) : num :=
  match v with
  | Some z => Num (Z.rem z 10)
  | None => NaN
  end.

(** *** Strings *)

Definition code (c : ascii) : Z := Z.of_N (N_of_ascii c).

(** [s.substring(from, to)] for [from <= to] *)
Definition substring (from to : nat) (s : string) : string :=
  String.substring from (to - from) s.

(** White space that [parseInt] skips: TAB, LF, VT, FF, CR, SP, NBSP. *)
Definition is_white (c : ascii) : bool :=
  let k := code c in
  ((9 <=? k) && (k <=? 13)) || (k =? 32) || (k =? 160).

Fixpoint trim_start (s : string) : string :=
  match s with
  | String c s' => if is_white c then trim_start s' else s
  | EmptyString => s
  end.

(** Value of [c] as a digit in [radix], if it is one. *)
Definition digit_val (radix : Z) (c : ascii) : option Z :=
  let k := code c in
  let v :=
    if (48 <=? k) && (k <=? 57) then k - 48
    else if (97 <=? k) && (k <=? 122) then k - 87
    else if (65 <=? k) && (k <=? 90) then k - 55
    else 36 in
  if v <? radix then Some v else None.

(** The longest prefix of digits, accumulated from the left; [acc] is
    [None] until a first digit was seen. *)
Fixpoint parse_digits (radix : Z) (s : string) (acc : option Z) : option Z :=
  match s with
  | String c s' =>
      match digit_val radix c with
      | Some d => parse_digits radix s' (Some (default 0 acc * radix + d))
      | None => acc
      end
  | EmptyString => acc
  end.

(** [parseInt(s)] with no radix argument: leading white space, an optional
    sign, an optional [0x]/[0X] prefix that selects radix 16, then the
    longest run of digits; [NaN] when that run is empty. *)
Definition parseInt (s : string) : num :=
  let s1 := trim_start s in
  let '(negative, s2) :=
    match s1 with
    | String "-" r => (true, r)
    | String "+" r => (false, r)
    | _ => (false, s1)
    end in
  let '(radix, s3) :=
    match s2 with
    | String "0" (String "x" r) => (16, r)
    | String "0" (String "X" r) => (16, r)
    | _ => (10, s2)
    end in
  match parse_digits radix s3 None with
  | None => NaN
  | Some v => Num (if negative : bool then - v else v)
  end.

(** Upper-case mapping of one code unit below 256.  Three of them leave
    the range or the length: U+00B5 maps to U+039C, U+00DF to "SS" and
    U+00FF to U+0178. *)
Definition upper_units (k : Z) : list Z :=
  if (97 <=? k) && (k <=? 122) then [k - 32]
  else if k =? 181 then [924]
  else if k =? 223 then [83; 83]
  else if (224 <=? k) && (k <=? 254) && negb (k =? 247) then [k - 32]
  else if k =? 255 then [376]
  else [k].

(** [s.toUpperCase()], as its code units *)
Fixpoint toUpperCase (s : string) : list Z :=
  match s with
  | String c s' => upper_units (code c) ++ toUpperCase s'
  | EmptyString => []
  end.

(** [u.charCodeAt(i)] *)
Definition charCodeAt (u : list Z) (i : nat) : num :=
  match u !! i with
  | Some k => Num k
  | None => NaN
  end.

(** [s.charAt(i)]: the index [NaN] counts as 0, an index out of range
    gives the empty string. *)
Definition charAt (s : string) (i : num) : string :=
  match i with
  | NaN => String.substring 0 1 s
  | Num z => if z <? 0 then "" else String.substring (Z.to_nat z) 1 s
  end.

End JS.

Import JS.

(** ** The game object *)

(** One row of the layout: the properties of a JavaScript array. *)
Abbreviation row := (gmap num Z).

(** [type Move = { sr, sc, er, ec }] *)
Record Move : Type := mkMove {
  sr : num;
  sc : num;
  er : num;
  ec : num
}.

(** The fields of [AbstractGame].  [_lastCaptured] is whatever the
    destination held, so it may be [undefined]. *)
Record Game : Type := mkGame {
  _layout : list row;
  _currentPlayer : Z;
  _lastMove : string;
  _lastCaptured : option Z;
  _winner : Z
}.

(** [static _types = "-RNCGEPKS"] *)
Definition _types : string := "-RNCGEPKS".

Definition set_layout (l : list row) (g : Game) : Game :=
  mkGame l (_currentPlayer g) (_lastMove g) (_lastCaptured g) (_winner g).

Definition set_currentPlayer (p : Z) (g : Game) : Game :=
  mkGame (_layout g) p (_lastMove g) (_lastCaptured g) (_winner g).

Definition set_lastMove (m : string) (g : Game) : Game :=
  mkGame (_layout g) (_currentPlayer g) m (_lastCaptured g) (_winner g).

Definition set_lastCaptured (c : option Z) (g : Game) : Game :=
  mkGame (_layout g) (_currentPlayer g) (_lastMove g) c (_winner g).

Definition set_winner (w : Z) (g : Game) : Game :=
  mkGame (_layout g) (_currentPlayer g) (_lastMove g) (_lastCaptured g) w.

(** The constructor: player 1 to move, nothing to recall, nobody won. *)
Definition new_game (layout : list row) : Game :=
  mkGame layout 1 "" (Some 0) (-1).

(** *** Reading and writing the layout *)

(** [layout[r]]: [undefined] for [NaN] and for an index that is no row. *)
Definition row_at (layout : list row) (r : num) : option row :=
  match r with
  | NaN => None
  | Num z => if z <? 0 then None else layout !! Z.to_nat z
  end.

(** [rw[c] = v]; storing [undefined] leaves a property that reads
    [undefined], which the map writes as no property. *)
Definition row_store (rw : row) (c : num) (v : option Z) : row :=
  match v with
  | Some z => <[c := z]> rw
  | None => delete c rw
  end.

(** The layout after the row [r] was replaced (the row exists). *)
Definition replace_row (layout : list row) (r : num) (rw : row) : list row :=
  match r with
  | NaN => layout
  | Num z => <[Z.to_nat z := rw]> layout
  end.

(** ** Methods: state, console and exceptions *)

Inductive exn : Type :=
  | Error (msg : string)    (* [throw new Error(msg)] *)
  | TypeError.              (* a property read or written on [undefined] *)

(** How a call ends: it returns [a], or an exception leaves it.  Either
    way [g] is the game object at that moment and [out] the lines the
    call wrote with [console.log], oldest first. *)
Inductive outcome (A : Type) : Type :=
  | Normal (a : A) (g : Game) (out : list string)
  | Abrupt (e : exn) (g : Game) (out : list string).

Arguments Normal {A} a g out.
Arguments Abrupt {A} e g out.

Definition M (A : Type) : Type := Game -> outcome A.

Definition ret {A} (a : A) : M A := fun g => Normal a g [].

Definition bind {A B} (m : M A) (f : A -> M B) : M B :=
  fun g =>
    match m g with
    | Normal a g1 out1 =>
        match f a g1 with
        | Normal b g2 out2 => Normal b g2 (out1 ++ out2)
        | Abrupt e g2 out2 => Abrupt e g2 (out1 ++ out2)
        end
    | Abrupt e g1 out1 => Abrupt e g1 out1
    end.

Declare Scope game_scope.
Delimit Scope game_scope with game.
Notation "x <- m1 ;; m2" := (bind m1 (fun x => m2))
  (at level 100, m1 at next level, m2 at level 200, right associativity)
  : game_scope.
Notation "m1 ;;; m2" := (bind m1 (fun _ => m2))
  (at level 100, m2 at level 200, right associativity) : game_scope.
Local Open Scope game_scope.

Definition throw {A} (e : exn) : M A := fun g => Abrupt e g [].

(** [console.log(line)] *)
Definition console_log (line : string) : M unit :=
  fun g => Normal tt g [line].

(** [this] *)
Definition this : M Game := fun g => Normal g g [].

Definition update (f : Game -> Game) : M unit := fun g => Normal tt (f g) [].

(** The row object [this._layout[r]] when a property of it is about to be
    read or written: a [TypeError] if it is [undefined]. *)
Definition row_object (r : num) : M row :=
  g <- this ;;
  match row_at (_layout g) r with
  | Some rw => ret rw
  | None => throw TypeError
  end.

(** [this._layout[r][c]] *)
Definition read_cell (r c : num) : M (option Z) :=
  rw <- row_object r ;;
  ret (rw !! c).

(** [this._layout[r][c] = v] *)
Definition write_cell (r c : num) (v : option Z) : M unit :=
  rw <- row_object r ;;
  update (fun g => set_layout (replace_row (_layout g) r (row_store rw c v)) g).

(** ** The methods of [AbstractGame] *)

(** [interpretMove(move)]: ranks are the two characters before each file
    letter, files are read off the upper-cased string. *)
Definition interpretMove (move : string) : Move :=
  {| sr := sub (Num 10) (parseInt (substring 0 2 move));
     sc := sub (charCodeAt (toUpperCase move) 2) (Num 65);
     er := sub (Num 10) (parseInt (substring 3 5 move));
     ec := sub (charCodeAt (toUpperCase move) 5) (Num 65) |}.

(** [getNextPlayer()] *)
Definition getNextPlayer : M Z :=
  g <- this ;;
  ret (if _currentPlayer g =? 2 then 1 else _currentPlayer g + 1).

(** [isGameOver()] *)
Definition isGameOver : M bool :=
  g <- this ;;
  ret (negb (_winner g =? -1)).

(** [getWinner()] *)
Definition getWinner : M Z :=
  g <- this ;;
  (if _winner g =? -1 then console_log "The game has not ended." else ret tt) ;;;
  ret (_winner g).

(** The test [x * (x - hi) > 0] of the input validation. *)
Definition outside (x : num) (hi : Z) : bool :=
  gt (mul x (sub x (Num hi))) (Num 0).

(** The message of the error that [validateMove] throws. *)
Definition illegal_move_message (move : Move) : string :=
  "Illegal Move: Array Notation (" +:+ to_string (sr move) +:+ ", "
    +:+ to_string (sc move) +:+ ") to (" +:+ to_string (er move) +:+ ", "
    +:+ to_string (ec move) +:+ ")".

(** [validateMove(move)] *)
Definition validateMove (move : Move) : M bool :=
  if outside (sr move) 9 || outside (er move) 9 ||
     outside (sc move) 8 || outside (ec move) 8
  then throw (Error (illegal_move_message move))
  else
    (* check start: must be ally *)
    g <- this ;;
    start <- read_cell (sr move) (sc move) ;;
    if strict_ne (floor_div10 start) (Num (_currentPlayer g))
    then console_log "You cannot move this piece." ;;; ret false
    else
      (* check end: must be empty/enemy & different from start *)
      dest <- read_cell (er move) (ec move) ;;
      if negb ((bool_decide (dest = Some 0)
                || strict_ne (floor_div10 dest) (Num (_currentPlayer g)))
               && (strict_ne (sr move) (er move)
                   || strict_ne (sc move) (ec move)))
      then console_log "not accepted" ;;; ret false
      else ret true.

(** [makeMove(moveStr)] *)
Definition makeMove (moveStr : string) : M unit :=
  let move := interpretMove moveStr in
  valid <- validateMove move ;;
  if valid : bool then
    captured <- read_cell (er move) (ec move) ;;
    update (set_lastCaptured captured) ;;;
    piece <- read_cell (sr move) (sc move) ;;
    write_cell (er move) (ec move) piece ;;;
    write_cell (sr move) (sc move) (Some 0) ;;;
    update (set_lastMove moveStr) ;;;
    next <- getNextPlayer ;;
    update (set_currentPlayer next)
  else
    console_log "Move not accepted.".

(** [recallMove()] *)
Definition recallMove : M unit :=
  g <- this ;;
  if negb (String.eqb (_lastMove g) "") then
    let move := interpretMove (_lastMove g) in
    piece <- read_cell (er move) (ec move) ;;
    write_cell (sr move) (sc move) piece ;;;
    g1 <- this ;;
    write_cell (er move) (ec move) (_lastCaptured g1) ;;;
    update (set_lastCaptured (Some 0)) ;;;
    update (set_lastMove "") ;;;
    g2 <- this ;;
    update (set_currentPlayer
              (if _currentPlayer g2 =? 1 then 2 else _currentPlayer g2 - 1))
  else
    console_log "There is no reverse available.".

(** The inner loop of [toString]: columns [j], [j+1], ... of row [i], as
    many as [todo] counts, appended to [result]. *)
Fixpoint toString_cols (i : Z) (todo : nat) (j : Z) (result : string)
  : M string :=
  match todo with
  | O => ret result
  | S todo' =>
      curr <- read_cell (Num i) (Num j) ;;
      let result := result +:+ " " in
      let team := floor_div10 curr in
      let type := rem10 curr in
      let result :=
        result +:+ (if strict_eq team (Num 0) then "-" else to_string team) in
      let result := result +:+ charAt _types type in
      toString_cols i todo' (j + 1) result
  end.

(** The outer loop of [toString]: rows [i], [i+1], ... *)
Fixpoint toString_rows (todo : nat) (i : Z) (result : string) : M string :=
  match todo with
  | O => ret result
  | S todo' =>
      let result := result +:+ (if i =? 0 then " " else " 0") in
      let result := result +:+ to_string (Num (10 - i)) in
      result <- toString_cols i 9 0 result ;;
      let result := result +:+ String "010" "" in
      toString_rows todo' (i + 1) result
  end.

(** [toString()] *)
Definition toString : M string :=
  result <- toString_rows 10 0 "" ;;
  ret (result +:+ "     A  B  C  D  E  F  G  H  I" +:+ String "010" "").

(** ** Squares of the layout *)

(** What [layout[r][c]] reads when the row exists. *)
Definition square (layout : list row) (r c : num) : option Z :=
  rw ← row_at layout r; rw !! c.

(** The layout after [layout[r][c] = v] (unchanged if there is no row). *)
Definition put (layout : list row) (r c : num) (v : option Z) : list row :=
  match row_at layout r with
  | Some rw => replace_row layout r (row_store rw c v)
  | None => layout
  end.

(** ** What the methods compute *)

(** The game a call leaves behind, however the call ends. *)
Definition final_game {A} (o : outcome A) : Game :=
  match o with
  | Normal _ g _ => g
  | Abrupt _ g _ => g
  end.

(** The same outcome with the game transformed. *)
Definition map_game {A} (f : Game -> Game) (o : outcome A) : outcome A :=
  match o with
  | Normal a g out => Normal a (f g) out
  | Abrupt e g out => Abrupt e (f g) out
  end.

Definition bounds_violated (move : Move) : bool :=
  outside (sr move) 9 || outside (er move) 9 ||
  outside (sc move) 8 || outside (ec move) 8.

(** The test on the end square, for the player [p]. *)
Definition target_ok (p : Z) (move : Move) (dest : option Z) : bool :=
  (bool_decide (dest = Some 0) || strict_ne (floor_div10 dest) (Num p))
  && (strict_ne (sr move) (er move) || strict_ne (sc move) (ec move)).

(** The game after [makeMove] applied the move. *)
Definition moved (moveStr : string) (g : Game) : Game :=
  let move := interpretMove moveStr in
  let piece := square (_layout g) (sr move) (sc move) in
  {| _layout :=
       put (put (_layout g) (er move) (ec move) piece)
           (sr move) (sc move) (Some 0);
     _currentPlayer :=
       if _currentPlayer g =? 2 then 1 else _currentPlayer g + 1;
     _lastMove := moveStr;
     _lastCaptured := square (_layout g) (er move) (ec move);
     _winner := _winner g |}.

(** The game after [recallMove] took the recorded move back. *)
Definition recalled (g : Game) : Game :=
  let move := interpretMove (_lastMove g) in
  let piece := square (_layout g) (er move) (ec move) in
  {| _layout :=
       put (put (_layout g) (sr move) (sc move) piece)
           (er move) (ec move) (_lastCaptured g);
     _currentPlayer :=
       if _currentPlayer g =? 1 then 2 else _currentPlayer g - 1;
     _lastMove := "";
     _lastCaptured := Some 0;
     _winner := _winner g |}.

(** What an accepted move means: the validation returned [true]. *)
Definition accepted (moveStr : string) (g : Game) : Prop :=
  validateMove (interpretMove moveStr) g = Normal true g [].

(** The same as a test. *)
Definition is_accepted (moveStr : string) (g : Game) : bool :=
  match validateMove (interpretMove moveStr) g with
  | Normal true _ _ => true
  | _ => false
  end.

(** ** Layouts as the presets give them *)

(** A row given as its list of cells, indices 0, 1, ... *)
Definition row_of_list (cells : list Z) : row :=
  list_to_map (imap (fun i v => (Num (Z.of_nat i), v)) cells).

(** A grid given as a list of rows of cells. *)
Definition layout_of (grid : list (list Z)) : list row :=
  map row_of_list grid.

(** Every square of the 10 x 9 board holds a number. *)
Definition full_board (layout : list row) : Prop :=
  forall i j, 0 <= i <= 9 -> 0 <= j <= 8 ->
    is_Some (square layout (Num i) (Num j)).

(** ** The rules the class does not implement *)

Module Rules.

(** Modelled from the spec: the read of one square by the Legality Engine
    and the Check Detector, neither of which has code in the class; an
    absent square counts as empty. *)
Definition cell (layout : list row) (r c : Z) : Z :=
  default 0 (square layout (Num r) (Num c)).

Definition team (v : Z) : Z := v / 10.
Definition kind (v : Z) : Z := v mod 10.

Definition on_board (r c : Z) : bool :=
  (0 <=? r) && (r <=? 9) && (0 <=? c) && (c <=? 8).

(** Modelled from the spec: the squares strictly between start and end
    along a rank or a file ("between" of 4.2); the class has no code for
    it. *)
Definition between (r1 c1 r2 c2 : Z) : list (Z * Z) :=
  if r1 =? r2
  then map (fun c => (r1, c)) (seqZ (Z.min c1 c2 + 1) (Z.abs (c2 - c1) - 1))
  else if c1 =? c2
  then map (fun r => (r, c1)) (seqZ (Z.min r1 r2 + 1) (Z.abs (r2 - r1) - 1))
  else [].

(** Modelled from the spec: the number of pieces strictly between start
    and end (the Cannon's screens); the class has no code for it. *)
Definition pieces_between (layout : list row) (r1 c1 r2 c2 : Z) : nat :=
  length (List.filter (fun p => negb (cell layout (fst p) (snd p) =? 0))
                      (between r1 c1 r2 c2)).

(** Modelled from the spec: the sides of the board, which no code of the
    class computes.  The comments of the class put team 2 on row 0 (rank
    10) and team 1 on row 9 (rank 1); the river runs between rows 4 and 5
    and a palace is columns 3-5 of the three rows at a side's home. *)
Definition own_half (t r : Z) : bool :=
  if t =? 1 then (5 <=? r) && (r <=? 9)
  else if t =? 2 then (0 <=? r) && (r <=? 4)
  else false.

Definition in_palace (t r c : Z) : bool :=
  (3 <=? c) && (c <=? 5) &&
  (if t =? 1 then (7 <=? r) && (r <=? 9)
   else if t =? 2 then (0 <=? r) && (r <=? 2)
   else false).

Definition forward (t : Z) : Z :=
  if t =? 1 then -1 else if t =? 2 then 1 else 0.

(** Modelled from the spec: the piece-specific movement rules of 4.2
    (step 4), for the piece that stands on the start square; the class
    lists them in a comment and has no code for them. *)
Definition piece_rule (layout : list row) (r1 c1 r2 c2 : Z) : bool :=
  let v := cell layout r1 c1 in
  let t := team v in
  let dr := r2 - r1 in
  let dc := c2 - c1 in
  let straight := xorb (dr =? 0) (dc =? 0) in
  let screens := pieces_between layout r1 c1 r2 c2 in
  match kind v with
  | 1 => (* Rook *) straight && Nat.eqb screens 0
  | 2 => (* Horse *)
      ((Z.abs dr =? 2) && (Z.abs dc =? 1)
         && (cell layout (r1 + Z.sgn dr) c1 =? 0))
      || ((Z.abs dr =? 1) && (Z.abs dc =? 2)
            && (cell layout r1 (c1 + Z.sgn dc) =? 0))
  | 3 => (* Cannon *)
      straight &&
      (if cell layout r2 c2 =? 0 then Nat.eqb screens 0 else Nat.eqb screens 1)
  | 4 => (* Guard *)
      (Z.abs dr =? 1) && (Z.abs dc =? 1) && in_palace t r2 c2
  | 5 => (* Elephant *)
      (Z.abs dr =? 2) && (Z.abs dc =? 2)
        && (cell layout (r1 + dr / 2) (c1 + dc / 2) =? 0) && own_half t r2
  | 6 => (* Pawn *)
      ((t =? 1) || (t =? 2)) &&
      (((dc =? 0) && (dr =? forward t))
       || (negb (own_half t r1) && (dr =? 0) && (Z.abs dc =? 1)))
  | 7 => (* King *)
      (((Z.abs dr =? 1) && (dc =? 0)) || ((dr =? 0) && (Z.abs dc =? 1)))
        && in_palace t r2 c2
  | _ => (* Stone, or no piece *) false
  end.

(** Modelled from the spec: steps 1 to 4 of the legality check of 4.2 for
    the piece on the start square, without the self-check step 5; the
    class implements steps 1 to 3 only. *)
Definition attack_path (layout : list row) (r1 c1 r2 c2 : Z) : bool :=
  let v := cell layout r1 c1 in
  let w := cell layout r2 c2 in
  on_board r1 c1 && on_board r2 c2
  && negb (team v =? 0)
  && negb ((team w =? team v) && negb (w =? 0))
  && negb ((r1 =? r2) && (c1 =? c2))
  && negb (kind w =? 8)
  && piece_rule layout r1 c1 r2 c2.

Definition all_squares : list (Z * Z) :=
  r ← seqZ 0 10; c ← seqZ 0 9; [(r, c)].

(** Modelled from the spec: the flying-general configuration, two Kings
    facing each other on an open file or rank; the class has no code for
    it. *)
Definition flying_general (layout : list row) (t kr kc : Z) : bool :=
  existsb (fun p =>
             let v := cell layout (fst p) (snd p) in
             (kind v =? 7) && negb (team v =? t) && negb (team v =? 0)
             && ((fst p =? kr) || (snd p =? kc))
             && Nat.eqb (pieces_between layout (fst p) (snd p) kr kc) 0)
          all_squares.

(** Modelled from the spec: [isInCheck(board, team)] of 4.3, true when an
    opposing piece has an attacking path onto the square of the team's
    King or the flying-general configuration holds; the class has no
    Check Detector. *)
Definition isInCheck (layout : list row) (t : Z) : bool :=
  existsb (fun k =>
             (cell layout (fst k) (snd k) =? t * 10 + 7)
             && (existsb (fun p =>
                            let v := cell layout (fst p) (snd p) in
                            negb (team v =? 0) && negb (team v =? t)
                            && attack_path layout (fst p) (snd p)
                                           (fst k) (snd k))
                         all_squares
                 || flying_general layout t (fst k) (snd k)))
          all_squares.

End Rules.

(** ** Vocabulary of the properties *)

(** A decoded coordinate is a number outside [0, hi]. *)
Definition off_range (x : num) (hi : Z) : Prop :=
  exists z, x = Num z /\ (z < 0 \/ hi < z).

(** A decoded move with a coordinate outside rows 0-9 or columns 0-8. *)
Definition off_board (move : Move) : Prop :=
  off_range (sr move) 9 \/ off_range (er move) 9 \/
  off_range (sc move) 8 \/ off_range (ec move) 8.

(** The square content [v] belongs to team [p]. *)
Definition held_by (p : Z) (v : option Z) : Prop :=
  floor_div10 v = Num p.

(** A sample position: the usual opening array, team 2 on rank 10. *)
Definition opening : list (list Z) :=
  [ [21; 22; 25; 24; 27; 24; 25; 22; 21];
    [ 0;  0;  0;  0;  0;  0;  0;  0;  0];
    [ 0; 23;  0;  0;  0;  0;  0; 23;  0];
    [26;  0; 26;  0; 26;  0; 26;  0; 26];
    [ 0;  0;  0;  0;  0;  0;  0;  0;  0];
    [ 0;  0;  0;  0;  0;  0;  0;  0;  0];
    [16;  0; 16;  0; 16;  0; 16;  0; 16];
    [ 0; 13;  0;  0;  0;  0;  0; 13;  0];
    [ 0;  0;  0;  0;  0;  0;  0;  0;  0];
    [11; 12; 15; 14; 17; 14; 15; 12; 11] ].

Definition opening_game : Game := new_game (layout_of opening).

(** The position after player 1 opened with the cannon move 03H03E. *)
Definition after_first_move : Game := moved "03H03E" opening_game.

(** The position after player 1's cannon took the knight on rank 10
    file B. *)
Definition after_capture : Game := moved "03B10B" opening_game.

(** ** Legality as the class judges it *)

(** Player 1's rook on rank 2 shields the king from the rook on rank 10. *)
Definition shielded_king : list (list Z) :=
  [ [ 0;  0;  0; 27; 21;  0;  0;  0;  0];
    [ 0;  0;  0;  0;  0;  0;  0;  0;  0];
    [ 0;  0;  0;  0;  0;  0;  0;  0;  0];
    [ 0;  0;  0;  0;  0;  0;  0;  0;  0];
    [ 0;  0;  0;  0;  0;  0;  0;  0;  0];
    [ 0;  0;  0;  0;  0;  0;  0;  0;  0];
    [ 0;  0;  0;  0;  0;  0;  0;  0;  0];
    [ 0;  0;  0;  0;  0;  0;  0;  0;  0];
    [ 0;  0;  0;  0; 11;  0;  0;  0;  0];
    [ 0;  0;  0;  0; 17;  0;  0;  0;  0] ].

(** Player 1's cannon on rank 3 file H and an enemy rook on file B with
    nothing between them. *)
Definition cannon_no_screen : list (list Z) :=
  [ [ 0;  0;  0;  0; 27;  0;  0;  0;  0];
    [ 0;  0;  0;  0;  0;  0;  0;  0;  0];
    [ 0;  0;  0;  0;  0;  0;  0;  0;  0];
    [ 0;  0;  0;  0;  0;  0;  0;  0;  0];
    [ 0;  0;  0;  0;  0;  0;  0;  0;  0];
    [ 0;  0;  0;  0;  0;  0;  0;  0;  0];
    [ 0;  0;  0;  0;  0;  0;  0;  0;  0];
    [ 0; 21;  0;  0;  0;  0;  0; 13;  0];
    [ 0;  0;  0;  0;  0;  0;  0;  0;  0];
    [ 0;  0;  0; 17;  0;  0;  0;  0;  0] ].

(** The same with two pieces between them, on files F and D. *)
Definition cannon_two_screens : list (list Z) :=
  [ [ 0;  0;  0;  0; 27;  0;  0;  0;  0];
    [ 0;  0;  0;  0;  0;  0;  0;  0;  0];
    [ 0;  0;  0;  0;  0;  0;  0;  0;  0];
    [ 0;  0;  0;  0;  0;  0;  0;  0;  0];
    [ 0;  0;  0;  0;  0;  0;  0;  0;  0];
    [ 0;  0;  0;  0;  0;  0;  0;  0;  0];
    [ 0;  0;  0;  0;  0;  0;  0;  0;  0];
    [ 0; 21;  0; 26;  0; 22;  0; 13;  0];
    [ 0;  0;  0;  0;  0;  0;  0;  0;  0];
    [ 0;  0;  0; 17;  0;  0;  0;  0;  0] ].

(** ** Move notation *)

(** The character of the decimal digit [d]. *)
Definition digit_char (d : Z) : ascii := ascii_of_N (Z.to_N (48 + d)).

(** The [k]-th letter of the alphabet, lower or upper case. *)
Definition file_char (lower : bool) (k : Z) : ascii :=
  ascii_of_N (Z.to_N ((if lower then 97 else 65) + k)).

(** A move string: rank digits [a b], a file letter, rank digits [c d],
    a file letter. *)
Definition move_text (a b : Z) (f1 : ascii) (c d : Z) (f2 : ascii) : string :=
  String (digit_char a) (String (digit_char b) (String f1
    (String (digit_char c) (String (digit_char d) (String f2 ""))))).

(** ** The text dump of the board *)

Definition newline : string := String "010" "".

(** A rank number written with two digits. *)
Definition two_digits (n : Z) : string :=
  if n <? 10 then "0" +:+ Z_to_string n else Z_to_string n.

(** The letter of a piece type; type 0 is the empty square. *)
Definition type_letter (t : Z) : string :=
  match t with
  | 0 => "-" | 1 => "R" | 2 => "N" | 3 => "C" | 4 => "G"
  | 5 => "E" | 6 => "P" | 7 => "K" | 8 => "S" | _ => ""
  end.

(** The team of a square: its number, or the placeholder for team 0. *)
Definition team_mark (t : Z) : string :=
  if t =? 0 then "-" else Z_to_string t.

(** One square of the dump: a blank, the team, the type letter. *)
Definition square_text (v : Z) : string :=
  " " +:+ team_mark (v / 10) +:+ type_letter (v mod 10).

Definition join (l : list string) : string := foldr String.append "" l.

(** The line of one rank: the rank, then files A to I. *)
Definition rank_line (layout : list row) (rank : Z) : string :=
  " " +:+ two_digits rank
    +:+ join (map (fun file => square_text (Rules.cell layout (10 - rank) file))
                  (seqZ 0 9))
    +:+ newline.

Definition files_line : string := "     A  B  C  D  E  F  G  H  I" +:+ newline.

(** The dump: ranks 10 down to 1, then the file letters. *)
Definition board_text (layout : list row) : string :=
  join (map (rank_line layout) [10; 9; 8; 7; 6; 5; 4; 3; 2; 1]) +:+ files_line.

(** Every square of the 10 x 9 board holds a piece encoding, a number
    that is not negative. *)
Definition encoded_board (layout : list row) : Prop :=
  forall i j, 0 <= i <= 9 -> 0 <= j <= 8 ->
    exists v, square layout (Num i) (Num j) = Some v /\ 0 <= v.

(** ** Sequences of calls *)

(** A call of a user of the class. *)
Inductive call : Type :=
  | MakeMove (moveStr : string)
  | RecallMove.

(** The game after one call, however the call ended. *)
Definition run_call (c : call) (g : Game) : Game :=
  match c with
  | MakeMove moveStr => final_game (makeMove moveStr g)
  | RecallMove => final_game (recallMove g)
  end.

(** The game after a sequence of calls by a user who carries on after
    rejections and exceptions. *)
Definition run_calls (cs : list call) (g : Game) : Game :=
  fold_left (fun g c => run_call c g) cs g.

(** The move on record can be taken back: its squares exist, the end
    square holds a piece encoding and, when the end square is on the
    board, so does [_lastCaptured]. *)
Definition record_ok (g : Game) : Prop :=
  _lastMove g = "" \/
  (let move := interpretMove (_lastMove g) in
   bounds_violated move = false /\
   is_Some (row_at (_layout g) (sr move)) /\
   is_Some (row_at (_layout g) (er move)) /\
   (exists p, square (_layout g) (er move) (ec move) = Some p /\ 0 <= p) /\
   (forall z, ec move = Num z -> exists v, _lastCaptured g = Some v /\ 0 <= v)).

(** The state of a two-player game on a full board. *)
Definition sound (g : Game) : Prop :=
  length (_layout g) = 10%nat /\
  encoded_board (_layout g) /\
  (_currentPlayer g = 1 \/ _currentPlayer g = 2) /\
  record_ok g.

(** A user's session: two accepted moves, a move without its end file, a
    recall, a recall with nothing on record, an empty string and a move
    off the board. *)
Definition sample_calls : list call :=
  [MakeMove "03H03E"; MakeMove "08B08E"; MakeMove "01A02";
   RecallMove; RecallMove; MakeMove ""; MakeMove "00A11Z"].

(** A call returns to its caller: it ends normally, with a result. *)
Definition returns {A} (o : outcome A) : Prop :=
  exists a g out, o = Normal a g out.

(** The method a call invokes. *)
Definition call_method (c : call) : M unit :=
  match c with
  | MakeMove moveStr => makeMove moveStr
  | RecallMove => recallMove
  end.

(** The calls of a user written one after the other with no [try] around
    them: an exception that leaves one call leaves the whole sequence. *)
Fixpoint run_uncaught (cs : list call) : M unit :=
  match cs with
  | [] => ret tt
  | c :: cs' => call_method c ;;; run_uncaught cs'
  end.

(** * Properties *)

(** ** Stores and reads of squares *)

Lemma row_store_lookup (rw : row) c v c' :
  row_store rw c v !! c' = if decide (c = c') then v else rw !! c'.
Proof.
  destruct v as [z|]; simpl.
  - rewrite lookup_insert. destruct (decide (c = c')); reflexivity.
  - rewrite lookup_delete. destruct (decide (c = c')); reflexivity.
Qed.

Lemma row_at_lt (layout : list row) r rw :
  row_at layout r = Some rw ->
  exists z, r = Num z /\ 0 <= z /\ (Z.to_nat z < length layout)%nat
            /\ layout !! Z.to_nat z = Some rw.
Proof.
  destruct r as [|z]; simpl; [discriminate|].
  destruct (Z.ltb_spec z 0); [discriminate|].
  intros H1. exists z. repeat split; try assumption.
  eapply lookup_lt_Some; eassumption.
Qed.

Lemma put_length layout r c v : length (put layout r c v) = length layout.
Proof.
  unfold put. destruct (row_at layout r); [|reflexivity].
  destruct r; simpl; [reflexivity|apply length_insert].
Qed.

Lemma row_at_replace layout r rw0 rw r' :
  row_at layout r = Some rw0 ->
  row_at (replace_row layout r rw) r' =
  if decide (r = r') then Some rw else row_at layout r'.
Proof.
  intros Hr. apply row_at_lt in Hr as (z & -> & Hz & Hlt & _).
  destruct r' as [|z']; simpl.
  - destruct (decide (Num z = NaN)); [discriminate|reflexivity].
  - destruct (Z.ltb_spec z' 0).
    + destruct (decide (Num z = Num z')) as [[= ->]|]; [lia|reflexivity].
    + destruct (decide (Num z = Num z')) as [[= ->]|Hne].
      * apply list_lookup_insert_eq; assumption.
      * apply list_lookup_insert_ne. intros Heq. apply Hne. f_equal. lia.
Qed.

Lemma row_at_put layout r c v r' :
  row_at (put layout r c v) r' =
  if decide (r = r') then rw ← row_at layout r; Some (row_store rw c v)
  else row_at layout r'.
Proof.
  unfold put. destruct (row_at layout r) as [rw|] eqn:Hr.
  - rewrite (row_at_replace _ _ rw) by assumption.
    destruct (decide (r = r')); reflexivity.
  - destruct (decide (r = r')) as [<-|]; [rewrite Hr|]; reflexivity.
Qed.

(** Reading a square after a store. *)
Lemma square_put layout r c v r' c' :
  square (put layout r c v) r' c' =
  if decide (r = r' /\ c = c' /\ is_Some (row_at layout r)) then v
  else square layout r' c'.
Proof.
  unfold square. rewrite row_at_put.
  destruct (decide (r = r')) as [<-|Hr].
  - destruct (row_at layout r) as [rw|] eqn:Hrow; simpl.
    + rewrite row_store_lookup. destruct (decide (c = c')) as [<-|Hc].
      * rewrite decide_True; [reflexivity|]. repeat split. eexists; reflexivity.
      * rewrite decide_False; [reflexivity|]. intros (_ & ? & _). contradiction.
    + rewrite decide_False; [reflexivity|]. intros (_ & _ & [? ?]). discriminate.
  - rewrite decide_False; [reflexivity|]. intros (? & _). contradiction.
Qed.

Lemma row_at_some_iff layout layout' :
  length layout = length layout' ->
  forall r, is_Some (row_at layout r) <-> is_Some (row_at layout' r).
Proof.
  intros Hlen [|z]; simpl; [reflexivity|].
  destruct (z <? 0); [reflexivity|].
  rewrite !lookup_lt_is_Some, Hlen. reflexivity.
Qed.

(** Two layouts with as many rows and the same squares are equal. *)
Lemma layout_ext (layout layout' : list row) :
  length layout = length layout' ->
  (forall r c, square layout r c = square layout' r c) ->
  layout = layout'.
Proof.
  intros Hlen Hsq. apply (list_eq_same_length _ _ (length layout));
    [symmetry; assumption|reflexivity|].
  intros i rw rw' Hi H1 H2. apply map_eq. intros c.
  specialize (Hsq (Num (Z.of_nat i)) c). unfold square in Hsq. simpl in Hsq.
  destruct (Z.ltb_spec (Z.of_nat i) 0); [lia|].
  rewrite Nat2Z.id, H1, H2 in Hsq. exact Hsq.
Qed.

Lemma read_cell_run r c g :
  read_cell r c g =
  match row_at (_layout g) r with
  | Some rw => Normal (rw !! c) g []
  | None => Abrupt TypeError g []
  end.
Proof.
  unfold read_cell, row_object, bind, this, ret, throw.
  destruct (row_at (_layout g) r); reflexivity.
Qed.

Lemma write_cell_run r c v g :
  write_cell r c v g =
  match row_at (_layout g) r with
  | Some _ => Normal tt (set_layout (put (_layout g) r c v) g) []
  | None => Abrupt TypeError g []
  end.
Proof.
  unfold write_cell, row_object, bind, this, ret, throw, update, put.
  destruct (row_at (_layout g) r); reflexivity.
Qed.

Lemma validateMove_run move g :
  validateMove move g =
  if bounds_violated move
  then Abrupt (Error (illegal_move_message move)) g []
  else
    match row_at (_layout g) (sr move) with
    | None => Abrupt TypeError g []
    | Some rw1 =>
        if strict_ne (floor_div10 (rw1 !! sc move)) (Num (_currentPlayer g))
        then Normal false g ["You cannot move this piece."]
        else
          match row_at (_layout g) (er move) with
          | None => Abrupt TypeError g []
          | Some rw2 =>
              if target_ok (_currentPlayer g) move (rw2 !! ec move)
              then Normal true g []
              else Normal false g ["not accepted"]
          end
    end.
Proof.
  unfold validateMove. fold (bounds_violated move).
  destruct (bounds_violated move); [reflexivity|].
  unfold bind at 1. unfold this at 1. unfold bind at 1.
  rewrite read_cell_run.
  destruct (row_at (_layout g) (sr move)) as [rw1|]; [|reflexivity].
  destruct (strict_ne _ _); [reflexivity|].
  unfold bind at 1. rewrite read_cell_run.
  destruct (row_at (_layout g) (er move)) as [rw2|]; [|reflexivity].
  fold (target_ok (_currentPlayer g) move (rw2 !! ec move)).
  destruct (target_ok _ _ _); reflexivity.
Qed.

(** [validateMove] only reads. *)
Lemma validateMove_keeps_game move g : final_game (validateMove move g) = g.
Proof.
  rewrite validateMove_run.
  repeat (match goal with |- context [match ?x with _ => _ end] => destruct x end);
    reflexivity.
Qed.

Lemma makeMove_run moveStr g :
  makeMove moveStr g =
  match validateMove (interpretMove moveStr) g with
  | Normal true _ _ => Normal tt (moved moveStr g) []
  | Normal false _ out => Normal tt g (out ++ ["Move not accepted."])
  | Abrupt e _ out => Abrupt e g out
  end.
Proof.
  unfold makeMove, moved. generalize (interpretMove moveStr). intros move.
  unfold bind at 1. rewrite validateMove_run.
  destruct (bounds_violated _); [reflexivity|].
  destruct (row_at (_layout g) (sr _)) as [rw1|] eqn:H1; [|reflexivity].
  destruct (strict_ne _ _); [reflexivity|].
  destruct (row_at (_layout g) (er _)) as [rw2|] eqn:H2; [|reflexivity].
  destruct (target_ok _ _ _); [|reflexivity].
  unfold bind. rewrite read_cell_run, H2. unfold update at 1.
  rewrite read_cell_run. simpl. rewrite H1.
  rewrite write_cell_run. simpl. rewrite H2.
  rewrite write_cell_run. simpl.
  assert (Hrow : is_Some (row_at (put (_layout g) (er move) (ec move)
                                      (rw1 !! sc move)) (sr move))).
  { apply (row_at_some_iff (_layout g)); [symmetry; apply put_length|].
    rewrite H1. eexists; reflexivity. }
  destruct Hrow as [rw3 ->]. simpl.
  unfold square. rewrite H1, H2. reflexivity.
Qed.

Lemma recallMove_run g :
  recallMove g =
  if String.eqb (_lastMove g) ""
  then Normal tt g ["There is no reverse available."]
  else
    let move := interpretMove (_lastMove g) in
    match row_at (_layout g) (er move), row_at (_layout g) (sr move) with
    | Some _, Some _ => Normal tt (recalled g) []
    | _, _ => Abrupt TypeError g []
    end.
Proof.
  unfold recallMove, recalled. unfold bind at 1. unfold this at 1.
  destruct (String.eqb (_lastMove g) ""); [reflexivity|].
  change (negb false) with true. cbv iota.
  generalize (interpretMove (_lastMove g)). intros move. cbv zeta.
  unfold bind. rewrite read_cell_run.
  destruct (row_at (_layout g) (er move)) as [rw2|] eqn:H2; [|reflexivity].
  rewrite write_cell_run.
  destruct (row_at (_layout g) (sr move)) as [rw1|] eqn:H1; [|reflexivity].
  simpl. rewrite write_cell_run. simpl.
  assert (Hrow : is_Some (row_at (put (_layout g) (sr move) (sc move)
                                      (rw2 !! ec move)) (er move))).
  { apply (row_at_some_iff (_layout g)); [symmetry; apply put_length|].
    rewrite H2. eexists; reflexivity. }
  destruct Hrow as [rw3 ->]. simpl.
  unfold square. rewrite H2. reflexivity.
Qed.

Lemma is_accepted_spec moveStr g :
  is_accepted moveStr g = true <-> accepted moveStr g.
Proof.
  unfold is_accepted, accepted. rewrite validateMove_run.
  destruct (bounds_violated _); [split; discriminate|].
  destruct (row_at (_layout g) (sr _)); [|split; discriminate].
  destruct (strict_ne _ _); [split; discriminate|].
  destruct (row_at (_layout g) (er _)); [|split; discriminate].
  destruct (target_ok _ _ _); split; (reflexivity || discriminate).
Qed.

(** What acceptance amounts to on the squares. *)
Lemma accepted_inv moveStr g :
  accepted moveStr g ->
  let move := interpretMove moveStr in
  bounds_violated move = false /\
  is_Some (row_at (_layout g) (sr move)) /\
  is_Some (row_at (_layout g) (er move)) /\
  floor_div10 (square (_layout g) (sr move) (sc move))
    = Num (_currentPlayer g) /\
  target_ok (_currentPlayer g) move
    (square (_layout g) (er move) (ec move)) = true.
Proof.
  unfold accepted. rewrite validateMove_run. cbv zeta.
  generalize (interpretMove moveStr). intros move. unfold square.
  destruct (bounds_violated move); [discriminate|].
  destruct (row_at (_layout g) (sr move)) as [rw1|]; [|discriminate].
  destruct (strict_ne _ _) eqn:Hs; [discriminate|].
  destruct (row_at (_layout g) (er move)) as [rw2|]; [|discriminate].
  destruct (target_ok _ _ _) eqn:Ht; [|discriminate].
  intros _. simpl. repeat split; try (eexists; reflexivity); try assumption.
  destruct (floor_div10 (rw1 !! sc move)) as [|z]; [discriminate|].
  simpl in Hs. apply negb_false_iff, Z.eqb_eq in Hs. congruence.
Qed.

Lemma accepted_makeMove moveStr g :
  accepted moveStr g -> makeMove moveStr g = Normal tt (moved moveStr g) [].
Proof. intros H. rewrite makeMove_run, H. reflexivity. Qed.

(** ** Turn rotation *)

Lemma moved_currentPlayer moveStr g :
  _currentPlayer (moved moveStr g) =
  if _currentPlayer g =? 2 then 1 else _currentPlayer g + 1.
Proof. reflexivity. Qed.

Lemma makeMove_final_game moveStr g :
  final_game (makeMove moveStr g) =
  if is_accepted moveStr g then moved moveStr g else g.
Proof.
  rewrite makeMove_run. unfold is_accepted.
  destruct (validateMove (interpretMove moveStr) g) as [[] ? ?|]; reflexivity.
Qed.

(** C6. In a two-player game (the current player is 1 or 2) an accepted
    [makeMove] hands the turn to the other player, so the turns alternate
    1, 2, 1, 2, ..., and a [makeMove] that is not accepted leaves
    [_currentPlayer] as it was. *)
Theorem makeMove_alternates_players (moveStr : string) (g : Game) :
  _currentPlayer g = 1 \/ _currentPlayer g = 2 ->
  let g' := final_game (makeMove moveStr g) in
  (is_accepted moveStr g = true ->
     _currentPlayer g' = 3 - _currentPlayer g) /\
  (is_accepted moveStr g = false -> _currentPlayer g' = _currentPlayer g) /\
  (_currentPlayer g' = 1 \/ _currentPlayer g' = 2).
Proof.
  intros Hp. cbv zeta. rewrite makeMove_final_game.
  destruct (is_accepted moveStr g).
  - rewrite moved_currentPlayer.
    destruct Hp as [-> | ->]; simpl; repeat split; try discriminate; auto.
  - repeat split; try discriminate; auto.
Qed.

Lemma makeMove_alternates_players_witness :
  (_currentPlayer opening_game = 1 \/ _currentPlayer opening_game = 2) /\
  is_accepted "03H03E" opening_game = true /\
  _currentPlayer (final_game (makeMove "03H03E" opening_game)) = 2 /\
  is_accepted "04H03E" opening_game = false /\
  _currentPlayer (final_game (makeMove "04H03E" opening_game)) = 1.
Proof.
  assert (Hp : _currentPlayer opening_game = 1 \/ _currentPlayer opening_game = 2)
    by (left; reflexivity).
  assert (Ha : is_accepted "03H03E" opening_game = true) by (vm_compute; reflexivity).
  assert (Hr : is_accepted "04H03E" opening_game = false) by (vm_compute; reflexivity).
  split; [exact Hp|]. split; [exact Ha|]. split; [|split; [exact Hr|]].
  - exact (proj1 (makeMove_alternates_players "03H03E" opening_game Hp) Ha).
  - exact (proj1 (proj2 (makeMove_alternates_players "04H03E" opening_game Hp)) Hr).
Defined.

Lemma getNextPlayer_run g :
  getNextPlayer g =
  Normal (if _currentPlayer g =? 2 then 1 else _currentPlayer g + 1) g [].
Proof. reflexivity. Qed.

Lemma recallMove_final_player g :
  _currentPlayer g = 1 \/ _currentPlayer g = 2 ->
  _currentPlayer (final_game (recallMove g)) = 1 \/
  _currentPlayer (final_game (recallMove g)) = 2.
Proof.
  intros Hp. rewrite recallMove_run.
  destruct (String.eqb (_lastMove g) ""); [exact Hp|]. cbv zeta.
  destruct (row_at _ (er _)); [|exact Hp].
  destruct (row_at _ (sr _)); [|exact Hp].
  simpl. destruct Hp as [-> | ->]; simpl; auto.
Qed.

(** C10. [getNextPlayer] returns 1 when the current player is 2 and the
    current player plus one otherwise; [recallMove], when a move is
    recorded on existing rows, rewinds the current player to 2 when it is 1
    and to the current player minus one otherwise.  Hence an accepted move
    of player 2 hands the turn to player 1, never to a player 3, and from
    a current player in {1, 2} both methods stay in {1, 2}. *)
Theorem rotation_cycles_between_1_and_2 (g : Game) :
  getNextPlayer g =
    Normal (if _currentPlayer g =? 2 then 1 else _currentPlayer g + 1) g []
  /\ (_lastMove g <> "" ->
      is_Some (row_at (_layout g) (sr (interpretMove (_lastMove g)))) ->
      is_Some (row_at (_layout g) (er (interpretMove (_lastMove g)))) ->
      exists g', recallMove g = Normal tt g' [] /\
        _currentPlayer g' =
          if _currentPlayer g =? 1 then 2 else _currentPlayer g - 1)
  /\ (forall moveStr, _currentPlayer g = 2 -> accepted moveStr g ->
      exists g', makeMove moveStr g = Normal tt g' [] /\
        _currentPlayer g' = 1)
  /\ (_currentPlayer g = 1 \/ _currentPlayer g = 2 ->
      forall moveStr,
        (_currentPlayer (final_game (makeMove moveStr g)) = 1 \/
         _currentPlayer (final_game (makeMove moveStr g)) = 2) /\
        (_currentPlayer (final_game (recallMove g)) = 1 \/
         _currentPlayer (final_game (recallMove g)) = 2)).
Proof.
  split; [apply getNextPlayer_run|]. split; [|split].
  - intros Hne [rw1 H1] [rw2 H2]. exists (recalled g).
    rewrite recallMove_run.
    destruct (String.eqb_spec (_lastMove g) ""); [contradiction|].
    cbv zeta. rewrite H1, H2. split; reflexivity.
  - intros moveStr Hp Hacc. exists (moved moveStr g).
    split; [apply accepted_makeMove; exact Hacc|].
    rewrite moved_currentPlayer, Hp. reflexivity.
  - intros Hp moveStr. split; [|apply recallMove_final_player; exact Hp].
    rewrite makeMove_final_game. destruct (is_accepted moveStr g); [|exact Hp].
    rewrite moved_currentPlayer. destruct Hp as [-> | ->]; simpl; auto.
Qed.

Lemma rotation_cycles_between_1_and_2_witness :
  _currentPlayer after_first_move = 2 /\
  (exists g', recallMove after_first_move = Normal tt g' [] /\
              _currentPlayer g' = 1) /\
  (exists g', makeMove "08B08E" after_first_move = Normal tt g' [] /\
              _currentPlayer g' = 1) /\
  (_currentPlayer (final_game (makeMove "08B08E" after_first_move)) = 1 \/
   _currentPlayer (final_game (makeMove "08B08E" after_first_move)) = 2).
Proof.
  pose proof (rotation_cycles_between_1_and_2 after_first_move)
    as (_ & Hrecall & Hmove & Hstay).
  split; [reflexivity|]. split; [|split].
  - apply Hrecall.
    + simpl. discriminate.
    + vm_compute. eexists; reflexivity.
    + vm_compute. eexists; reflexivity.
  - apply Hmove; [reflexivity|]. vm_compute. reflexivity.
  - apply (Hstay (or_intror eq_refl) "08B08E").
Defined.

(** ** The winner field *)

Lemma validateMove_set_winner w move g :
  validateMove move (set_winner w g) =
  map_game (set_winner w) (validateMove move g).
Proof.
  rewrite !validateMove_run. simpl.
  destruct (bounds_violated move); [reflexivity|].
  destruct (row_at (_layout g) (sr move)); [|reflexivity].
  destruct (strict_ne _ _); [reflexivity|].
  destruct (row_at (_layout g) (er move)); [|reflexivity].
  destruct (target_ok _ _ _); reflexivity.
Qed.

(** C5, as the code has it.  [makeMove] neither reads nor writes
    [_winner]: with any value [w] stored in the field the call ends as it
    does without it, applying the same changes to the grid and the
    metadata, and the field keeps its value. *)
Theorem makeMove_ignores_winner (w : Z) (moveStr : string) (g : Game) :
  makeMove moveStr (set_winner w g) =
    map_game (set_winner w) (makeMove moveStr g)
  /\ _winner (final_game (makeMove moveStr g)) = _winner g.
Proof.
  rewrite !makeMove_run, validateMove_set_winner.
  destruct (validateMove (interpretMove moveStr) g) as [[] ? ?|]; simpl;
    split; reflexivity.
Qed.

(** C5 fails as stated: with the winner set to player 1 the cannon move
    03H03E is still applied; the cannon leaves rank 3 file H for file E and
    the turn passes to player 2. *)
Lemma move_applied_after_game_over :
  let g := set_winner 1 opening_game in
  negb (_winner g =? -1) = true /\
  exists g', makeMove "03H03E" g = Normal tt g' [] /\
    square (_layout g) (Num 7) (Num 7) = Some 13 /\
    square (_layout g') (Num 7) (Num 7) = Some 0 /\
    square (_layout g') (Num 7) (Num 4) = Some 13 /\
    _currentPlayer g = 1 /\ _currentPlayer g' = 2 /\
    _lastMove g' = "03H03E".
Proof.
  cbv zeta. split; [reflexivity|].
  exists (moved "03H03E" (set_winner 1 opening_game)).
  split; [vm_compute; reflexivity|]. repeat split; vm_compute; reflexivity.
Qed.

(** ** Moves off the board *)

Lemma outside_spec x hi : 0 <= hi -> outside x hi = true <-> off_range x hi.
Proof.
  intros Hhi. unfold outside, off_range. destruct x as [|z]; simpl.
  - split; [discriminate|]. intros (z & [=] & _).
  - rewrite Z.ltb_lt. split.
    + intros H. exists z. split; [reflexivity|]. nia.
    + intros (z' & [= <-] & H). nia.
Qed.

Lemma bounds_violated_spec move :
  bounds_violated move = true <-> off_board move.
Proof.
  unfold bounds_violated, off_board.
  rewrite !orb_true_iff, !outside_spec by lia. tauto.
Qed.

(** C8, as the code has it.  A move string with a decoded coordinate that
    is a number outside rows 0-9 or columns 0-8 is refused with the game
    object untouched and nothing written to the console, and the refusal
    is the [Error] that [validateMove] throws: [makeMove] does not catch
    it, so the call does not return, and the exception leaves the
    caller's code as well, whatever calls were to follow. *)
Theorem makeMove_off_board_throws (moveStr : string) (g : Game) :
  off_board (interpretMove moveStr) ->
  let err := Error (illegal_move_message (interpretMove moveStr)) in
  makeMove moveStr g = Abrupt err g []
  /\ ~ returns (makeMove moveStr g)
  /\ (forall cs, run_uncaught (MakeMove moveStr :: cs) g = Abrupt err g []).
Proof.
  intros Hoff. cbv zeta. apply bounds_violated_spec in Hoff.
  assert (H : makeMove moveStr g =
              Abrupt (Error (illegal_move_message (interpretMove moveStr))) g []).
  { rewrite makeMove_run, validateMove_run, Hoff. reflexivity. }
  split; [exact H|]. split.
  - intros (a & g' & out & Hret). rewrite H in Hret. discriminate Hret.
  - intros cs. cbn [run_uncaught call_method]. unfold bind.
    rewrite H. reflexivity.
Qed.

Lemma makeMove_off_board_throws_witness :
  off_board (interpretMove "03H11E") /\
  makeMove "03H11E" opening_game =
    Abrupt (Error "Illegal Move: Array Notation (7, 7) to (-1, 4)")
           opening_game [] /\
  run_uncaught [MakeMove "03H11E"; MakeMove "03H03E"] opening_game =
    Abrupt (Error "Illegal Move: Array Notation (7, 7) to (-1, 4)")
           opening_game [].
Proof.
  assert (Hoff : off_board (interpretMove "03H11E")).
  { right; left. exists (-1). split; [reflexivity|lia]. }
  split; [exact Hoff|].
  destruct (makeMove_off_board_throws "03H11E" opening_game Hoff)
    as (Hrun & _ & Hseq).
  split; [exact Hrun|]. exact (Hseq [MakeMove "03H03E"]).
Defined.

(** C8 fails as stated: the move 03H11E, whose end row decodes to -1, is
    not reported by a returned result.  [makeMove] does not return: the
    [Error] thrown by [validateMove] leaves it uncaught, and in a caller
    without a handler the legal move 03H03E that follows is never made,
    whereas after the ordinary rejection of 04H03E the caller carries on
    and the move is made. *)
Lemma off_board_move_is_thrown_not_returned :
  off_board (interpretMove "03H11E") /\
  ~ returns (makeMove "03H11E" opening_game) /\
  run_uncaught [MakeMove "03H11E"; MakeMove "03H03E"] opening_game =
    Abrupt (Error "Illegal Move: Array Notation (7, 7) to (-1, 4)")
           opening_game [] /\
  run_uncaught [MakeMove "04H03E"; MakeMove "03H03E"] opening_game =
    Normal tt (moved "03H03E" opening_game)
           ["You cannot move this piece."; "Move not accepted."].
Proof.
  split; [right; left; exists (-1); split; [reflexivity|lia]|].
  split.
  - intros (a & g' & out & Hret). vm_compute in Hret. discriminate Hret.
  - split; vm_compute; reflexivity.
Qed.

(** ** Rejected moves *)

Lemma row_at_in_range (layout : list row) z :
  length layout = 10%nat -> 0 <= z <= 9 -> is_Some (row_at layout (Num z)).
Proof.
  intros Hlen Hz. simpl. destruct (Z.ltb_spec z 0); [lia|].
  apply lookup_lt_is_Some. lia.
Qed.

Lemma in_range_not_violated r1 c1 r2 c2 :
  0 <= r1 <= 9 -> 0 <= c1 <= 8 -> 0 <= r2 <= 9 -> 0 <= c2 <= 8 ->
  bounds_violated (mkMove (Num r1) (Num c1) (Num r2) (Num c2)) = false.
Proof.
  intros. apply not_true_is_false. rewrite bounds_violated_spec.
  unfold off_board, off_range. simpl.
  intros [H'|[H'|[H'|H']]]; destruct H' as (z & [= <-] & Hz); lia.
Qed.

(** C4. A move string that decodes to coordinates on the board of a
    ten-row layout, and whose start square is not held by the current
    player, or whose end square is held by the current player, or whose
    start and end coincide, makes [makeMove] return with the game object
    (grid, current player, last move, last capture, winner) exactly as it
    was, after writing the reason and "Move not accepted." to the
    console. *)
Theorem makeMove_rejection_changes_nothing
    (moveStr : string) (g : Game) (r1 c1 r2 c2 : Z) :
  interpretMove moveStr = mkMove (Num r1) (Num c1) (Num r2) (Num c2) ->
  0 <= r1 <= 9 -> 0 <= c1 <= 8 -> 0 <= r2 <= 9 -> 0 <= c2 <= 8 ->
  length (_layout g) = 10%nat ->
  _currentPlayer g <> 0 ->
  ~ held_by (_currentPlayer g) (square (_layout g) (Num r1) (Num c1))
  \/ held_by (_currentPlayer g) (square (_layout g) (Num r2) (Num c2))
  \/ (r1 = r2 /\ c1 = c2) ->
  exists reason,
    makeMove moveStr g = Normal tt g [reason; "Move not accepted."]
    /\ (reason = "You cannot move this piece." \/ reason = "not accepted").
Proof.
  intros Hmove Hr1 Hc1 Hr2 Hc2 Hlen Hcp Hfail.
  rewrite makeMove_run, validateMove_run, Hmove.
  rewrite in_range_not_violated by assumption.
  destruct (row_at_in_range _ r1 Hlen Hr1) as [rw1 Hrow1].
  destruct (row_at_in_range _ r2 Hlen Hr2) as [rw2 Hrow2].
  unfold held_by, square in Hfail. rewrite Hrow1, Hrow2 in Hfail.
  simpl in Hfail. cbn [sr sc er ec]. rewrite Hrow1.
  destruct (strict_ne (floor_div10 (rw1 !! Num c1)) (Num (_currentPlayer g)))
    eqn:Hstart.
  { eexists. split; [reflexivity|]. left; reflexivity. }
  rewrite Hrow2.
  assert (Hheld : floor_div10 (rw1 !! Num c1) = Num (_currentPlayer g)).
  { destruct (floor_div10 (rw1 !! Num c1)) as [|z]; [discriminate|].
    simpl in Hstart. apply negb_false_iff, Z.eqb_eq in Hstart. congruence. }
  assert (Hdest : target_ok (_currentPlayer g)
                    (mkMove (Num r1) (Num c1) (Num r2) (Num c2))
                    (rw2 !! Num c2) = false).
  { unfold target_ok. cbn [sr sc er ec].
    destruct Hfail as [Hn | [Hd | [-> ->]]].
    - contradiction.
    - rewrite Hd. simpl. rewrite Z.eqb_refl. simpl.
      rewrite bool_decide_eq_false_2; [reflexivity|].
      intros Hzero. rewrite Hzero in Hd. simpl in Hd.
      injection Hd as Hd. apply Hcp. symmetry. exact Hd.
    - simpl. rewrite !Z.eqb_refl. simpl. apply andb_false_r. }
  rewrite Hdest. eexists. split; [reflexivity|]. right; reflexivity.
Qed.

Lemma makeMove_rejection_changes_nothing_witness :
  (exists reason,
     makeMove "04H03E" opening_game =
       Normal tt opening_game [reason; "Move not accepted."]
     /\ (reason = "You cannot move this piece." \/ reason = "not accepted"))
  /\ (exists reason,
     makeMove "03H01A" opening_game =
       Normal tt opening_game [reason; "Move not accepted."]
     /\ (reason = "You cannot move this piece." \/ reason = "not accepted")).
Proof.
  split.
  - apply (makeMove_rejection_changes_nothing "04H03E" opening_game 6 7 7 4);
      [reflexivity|lia|lia|lia|lia|reflexivity|discriminate|].
    left. vm_compute. discriminate.
  - apply (makeMove_rejection_changes_nothing "03H01A" opening_game 7 7 9 0);
      [reflexivity|lia|lia|lia|lia|reflexivity|discriminate|].
    right; left. vm_compute. reflexivity.
Defined.

(** ** Making a move and taking it back *)

Lemma square_put_row layout r c v r' c' :
  is_Some (row_at layout r) ->
  square (put layout r c v) r' c' =
  if decide (r = r' /\ c = c') then v else square layout r' c'.
Proof.
  intros Hrow. rewrite square_put.
  destruct (decide (r = r' /\ c = c')) as [[-> ->]|Hne].
  - rewrite decide_True; [reflexivity|]. auto.
  - rewrite decide_False; [reflexivity|]. intros (? & ? & _). auto.
Qed.

Lemma row_at_put_some layout r c v r' :
  is_Some (row_at layout r') -> is_Some (row_at (put layout r c v) r').
Proof.
  apply (row_at_some_iff layout (put layout r c v)).
  symmetry. apply put_length.
Qed.

(** With a current player other than 0, an accepted move leaves its
    start square. *)
Lemma accepted_leaves_start moveStr g :
  accepted moveStr g -> _currentPlayer g <> 0 ->
  ~ (sr (interpretMove moveStr) = er (interpretMove moveStr) /\
     sc (interpretMove moveStr) = ec (interpretMove moveStr)).
Proof.
  intros Hacc Hcp. pose proof (accepted_inv _ _ Hacc) as Hinv.
  cbv zeta in Hinv. revert Hinv. generalize (interpretMove moveStr).
  intros move (_ & _ & _ & Hstart & Hok) [Hr Hc].
  unfold target_ok in Hok. rewrite <- Hr, <- Hc, Hstart in Hok.
  apply andb_true_iff in Hok as [Hok _].
  apply orb_true_iff in Hok as [Hzero|Hteam].
  - apply bool_decide_eq_true in Hzero. rewrite Hzero in Hstart.
    injection Hstart as Hstart. apply Hcp. symmetry. exact Hstart.
  - simpl in Hteam. rewrite Z.eqb_refl in Hteam. discriminate Hteam.
Qed.

Lemma accepted_nonempty moveStr g : accepted moveStr g -> moveStr <> "".
Proof.
  intros Hacc ->. destruct (accepted_inv _ _ Hacc) as (_ & [rw Hrow] & _).
  discriminate Hrow.
Qed.

(** The four stores of a move and its recall give the layout back. *)
Lemma recall_restores_layout layout s1 s2 e1 e2 :
  is_Some (row_at layout s1) -> is_Some (row_at layout e1) ->
  ~ (s1 = e1 /\ s2 = e2) ->
  let piece := square layout s1 s2 in
  let made := put (put layout e1 e2 piece) s1 s2 (Some 0) in
  put (put made s1 s2 (square made e1 e2)) e1 e2 (square layout e1 e2) = layout.
Proof.
  intros Hs He Hne. cbv zeta.
  assert (Hback : square (put (put layout e1 e2 (square layout s1 s2))
                              s1 s2 (Some 0)) e1 e2 = square layout s1 s2).
  { rewrite square_put_row by (apply row_at_put_some; exact Hs).
    rewrite decide_False by exact Hne.
    rewrite square_put_row by exact He.
    rewrite decide_True by auto. reflexivity. }
  rewrite Hback. apply layout_ext.
  - rewrite !put_length. reflexivity.
  - intros r c.
    rewrite square_put_row by (do 3 apply row_at_put_some; exact He).
    destruct (decide (e1 = r /\ e2 = c)) as [[<- <-]|Hne1]; [reflexivity|].
    rewrite square_put_row by (do 2 apply row_at_put_some; exact Hs).
    destruct (decide (s1 = r /\ s2 = c)) as [[<- <-]|Hne2]; [reflexivity|].
    rewrite square_put_row by (apply row_at_put_some; exact Hs).
    rewrite decide_False by exact Hne2.
    rewrite square_put_row by exact He.
    rewrite decide_False by exact Hne1. reflexivity.
Qed.

(** C3, as the code has it.  After an accepted move of a current player
    other than 0, [recallMove] puts the grid, the current player and the
    winner back exactly as they were before the move, and leaves
    [_lastMove] empty and [_lastCaptured] 0, whatever they were before. *)
Theorem recallMove_undoes_makeMove (moveStr : string) (g : Game) :
  accepted moveStr g ->
  _currentPlayer g <> 0 ->
  exists g',
    makeMove moveStr g = Normal tt g' [] /\
    recallMove g' =
      Normal tt {| _layout := _layout g;
                   _currentPlayer := _currentPlayer g;
                   _lastMove := "";
                   _lastCaptured := Some 0;
                   _winner := _winner g |} [].
Proof.
  intros Hacc Hcp. exists (moved moveStr g).
  split; [apply accepted_makeMove; exact Hacc|].
  pose proof (accepted_nonempty _ _ Hacc) as Hne.
  pose proof (accepted_leaves_start _ _ Hacc Hcp) as Hdiff.
  destruct (accepted_inv _ _ Hacc) as (_ & Hs & He & _ & _). cbv zeta in Hs, He.
  rewrite recallMove_run.
  change (_lastMove (moved moveStr g)) with moveStr.
  destruct (String.eqb_spec moveStr ""); [contradiction|]. cbv zeta.
  revert Hs He Hdiff. unfold recalled.
  change (_lastMove (moved moveStr g)) with moveStr.
  unfold moved. cbn [_layout _lastCaptured _currentPlayer _winner].
  generalize (interpretMove moveStr). intros move Hs He Hdiff.
  destruct (row_at_put_some _ (sr move) (sc move) (Some 0) _
              (row_at_put_some _ (er move) (ec move)
                 (square (_layout g) (sr move) (sc move)) _ He)) as [rw2 ->].
  destruct (row_at_put_some _ (sr move) (sc move) (Some 0) _
              (row_at_put_some _ (er move) (ec move)
                 (square (_layout g) (sr move) (sc move)) _ Hs)) as [rw1 ->].
  f_equal. f_equal.
  - apply recall_restores_layout; assumption.
  - destruct (Z.eqb_spec (_currentPlayer g) 2) as [->|Hn2]; [reflexivity|].
    destruct (Z.eqb_spec (_currentPlayer g + 1) 1); lia.
Qed.

Lemma recallMove_undoes_makeMove_witness :
  accepted "03H03E" opening_game /\
  _currentPlayer opening_game <> 0 /\
  exists g',
    makeMove "03H03E" opening_game = Normal tt g' [] /\
    recallMove g' = Normal tt opening_game [].
Proof.
  assert (Hacc : accepted "03H03E" opening_game) by (vm_compute; reflexivity).
  assert (Hcp : _currentPlayer opening_game <> 0) by discriminate.
  split; [exact Hacc|]. split; [exact Hcp|].
  exact (recallMove_undoes_makeMove "03H03E" opening_game Hacc Hcp).
Defined.

(** C3 fails as stated for [_lastMove] and [_lastCaptured]: after the
    capture 03B10B is on record, player 2 retakes with 10A10B and recalls
    it; the grid and the current player are back, but the record of the
    earlier move is gone: [_lastMove] is empty instead of "03B10B" and
    [_lastCaptured] is 0 instead of 22. *)
Lemma recallMove_forgets_earlier_record :
  makeMove "03B10B" opening_game = Normal tt after_capture [] /\
  accepted "10A10B" after_capture /\
  exists g' g'',
    makeMove "10A10B" after_capture = Normal tt g' [] /\
    recallMove g' = Normal tt g'' [] /\
    _layout g'' = _layout after_capture /\
    _currentPlayer g'' = _currentPlayer after_capture /\
    _lastMove after_capture = "03B10B" /\ _lastMove g'' = "" /\
    _lastCaptured after_capture = Some 22 /\ _lastCaptured g'' = Some 0 /\
    g'' <> after_capture.
Proof.
  split; [vm_compute; reflexivity|]. split; [vm_compute; reflexivity|].
  exists (moved "10A10B" after_capture).
  exists (recalled (moved "10A10B" after_capture)).
  split; [vm_compute; reflexivity|]. split; [vm_compute; reflexivity|].
  split; [vm_compute; reflexivity|]. split; [reflexivity|].
  split; [reflexivity|]. split; [reflexivity|].
  split; [vm_compute; reflexivity|]. split; [reflexivity|].
  intros Heq. apply (f_equal _lastMove) in Heq. discriminate Heq.
Qed.

(** ** Legality: the ownership tests *)

Lemma held_by_dec p v :
  strict_ne (floor_div10 v) (Num p) = false <-> held_by p v.
Proof.
  unfold held_by. destruct (floor_div10 v) as [|z]; simpl.
  - split; discriminate.
  - rewrite negb_false_iff, Z.eqb_eq. split; congruence.
Qed.

(** C1, as the code has it.  On a ten-row layout a move with coordinates
    on the board is judged legal exactly when the start square is held by
    the current player, the end square is empty or not held by the
    current player, and start and end differ; nothing else is examined,
    the safety of the mover's King included.  A move that is not legal is
    turned down with [false], and [makeMove] applies every move string
    that decodes to a legal move. *)
Theorem validateMove_checks_ownership_only (g : Game) (r1 c1 r2 c2 : Z) :
  0 <= r1 <= 9 -> 0 <= c1 <= 8 -> 0 <= r2 <= 9 -> 0 <= c2 <= 8 ->
  length (_layout g) = 10%nat ->
  let move := mkMove (Num r1) (Num c1) (Num r2) (Num c2) in
  let start := square (_layout g) (Num r1) (Num c1) in
  let dest := square (_layout g) (Num r2) (Num c2) in
  let legal :=
    held_by (_currentPlayer g) start /\
    (dest = Some 0 \/ ~ held_by (_currentPlayer g) dest) /\
    ~ (r1 = r2 /\ c1 = c2) in
  (validateMove move g = Normal true g [] <-> legal)
  /\ (~ legal -> exists reason, validateMove move g = Normal false g [reason])
  /\ (forall moveStr, interpretMove moveStr = move -> legal ->
        makeMove moveStr g = Normal tt (moved moveStr g) []).
Proof.
  intros Hr1 Hc1 Hr2 Hc2 Hlen. cbv zeta.
  destruct (row_at_in_range _ r1 Hlen Hr1) as [rw1 Hrow1].
  destruct (row_at_in_range _ r2 Hlen Hr2) as [rw2 Hrow2].
  assert (Hrun : validateMove (mkMove (Num r1) (Num c1) (Num r2) (Num c2)) g =
    if strict_ne (floor_div10 (rw1 !! Num c1)) (Num (_currentPlayer g))
    then Normal false g ["You cannot move this piece."]
    else if target_ok (_currentPlayer g)
              (mkMove (Num r1) (Num c1) (Num r2) (Num c2)) (rw2 !! Num c2)
         then Normal true g [] else Normal false g ["not accepted"]).
  { rewrite validateMove_run, in_range_not_violated by assumption.
    cbn [sr sc er ec]. rewrite Hrow1, Hrow2. reflexivity. }
  unfold square. rewrite Hrow1, Hrow2. simpl option_bind.
  change (mbind (fun rw : row => rw !! Num c1) (Some rw1)) with (rw1 !! Num c1).
  change (mbind (fun rw : row => rw !! Num c2) (Some rw2)) with (rw2 !! Num c2).
  assert (Hiff : validateMove (mkMove (Num r1) (Num c1) (Num r2) (Num c2)) g
                   = Normal true g [] <->
                 held_by (_currentPlayer g) (rw1 !! Num c1) /\
                 (rw2 !! Num c2 = Some 0 \/
                  ~ held_by (_currentPlayer g) (rw2 !! Num c2)) /\
                 ~ (r1 = r2 /\ c1 = c2)).
  { assert (Hok : target_ok (_currentPlayer g)
                    (mkMove (Num r1) (Num c1) (Num r2) (Num c2))
                    (rw2 !! Num c2) = true <->
                  (rw2 !! Num c2 = Some 0 \/
                   ~ held_by (_currentPlayer g) (rw2 !! Num c2)) /\
                  ~ (r1 = r2 /\ c1 = c2)).
    { unfold target_ok. cbn [sr sc er ec]. simpl strict_ne at 2 3.
      rewrite andb_true_iff, !orb_true_iff, bool_decide_eq_true.
      rewrite !negb_true_iff, !Z.eqb_neq, <- held_by_dec.
      rewrite not_false_iff_true. split; intros [Hd Hne]; (split; [exact Hd|lia]). }
    rewrite Hrun, <- held_by_dec.
    destruct (strict_ne (floor_div10 (rw1 !! Num c1)) _).
    { split; [discriminate|]. intros [? _]. discriminate. }
    destruct (target_ok _ _ _).
    - split; [intros _|reflexivity]. split; [reflexivity|]. apply Hok. reflexivity.
    - split; [discriminate|]. intros [_ Hl]. apply Hok in Hl. discriminate Hl. }
  split; [exact Hiff|]. split.
  - intros Hnot. rewrite Hrun in Hiff |- *.
    destruct (strict_ne (floor_div10 (rw1 !! Num c1)) _);
      [eexists; reflexivity|].
    destruct (target_ok _ _ _); [|eexists; reflexivity].
    exfalso. apply Hnot, Hiff. reflexivity.
  - intros moveStr Hmove Hlegal. apply accepted_makeMove.
    unfold accepted. rewrite Hmove. apply Hiff. exact Hlegal.
Qed.

Lemma validateMove_checks_ownership_only_witness :
  validateMove (mkMove (Num 7) (Num 7) (Num 7) (Num 4)) opening_game
    = Normal true opening_game []
  /\ makeMove "03H03E" opening_game
    = Normal tt (moved "03H03E" opening_game) []
  /\ exists reason,
       validateMove (mkMove (Num 7) (Num 7) (Num 9) (Num 0)) opening_game
         = Normal false opening_game [reason].
Proof.
  assert (Hlegal :
    held_by 1 (square (_layout opening_game) (Num 7) (Num 7)) /\
    (square (_layout opening_game) (Num 7) (Num 4) = Some 0 \/
     ~ held_by 1 (square (_layout opening_game) (Num 7) (Num 4))) /\
    ~ (7 = 7 /\ 7 = 4)).
  { split; [vm_compute; reflexivity|]. split; [left; vm_compute; reflexivity|lia]. }
  destruct (validateMove_checks_ownership_only opening_game 7 7 7 4)
    as (Hiff & _ & Hmake); [lia|lia|lia|lia|reflexivity|].
  destruct (validateMove_checks_ownership_only opening_game 7 7 9 0)
    as (_ & Hnot & _); [lia|lia|lia|lia|reflexivity|].
  split; [apply Hiff; exact Hlegal|].
  split; [apply Hmake; [reflexivity|exact Hlegal]|].
  apply Hnot. intros (_ & [Hempty|Hfree] & _).
  - vm_compute in Hempty. discriminate Hempty.
  - apply Hfree. vm_compute. reflexivity.
Defined.

(** C1 fails as stated: player 1's King on rank 1 file E is shielded from
    the rook on rank 10 by the rook on rank 2; moving that rook aside with
    02E02A is judged legal and applied, and leaves player 1's own King in
    check. *)
Lemma legal_move_exposes_own_king :
  let g := new_game (layout_of shielded_king) in
  Rules.isInCheck (_layout g) 1 = false /\
  validateMove (interpretMove "02E02A") g = Normal true g [] /\
  exists g',
    makeMove "02E02A" g = Normal tt g' [] /\
    Rules.isInCheck (_layout g') 1 = true.
Proof.
  cbv zeta. split; [vm_compute; reflexivity|].
  split; [vm_compute; reflexivity|].
  exists (moved "02E02A" (new_game (layout_of shielded_king))).
  split; vm_compute; reflexivity.
Qed.

(** C2 on the code: a cannon capture along rank 3 from file H to file B is
    accepted and applied with no piece in between, and again with two
    pieces in between, although the Cannon rule permits neither. *)
Theorem cannon_capture_ignores_screens :
  (let g := new_game (layout_of cannon_no_screen) in
   Rules.cell (_layout g) 7 7 = 13 /\ Rules.cell (_layout g) 7 1 = 21 /\
   Rules.pieces_between (_layout g) 7 7 7 1 = 0%nat /\
   Rules.piece_rule (_layout g) 7 7 7 1 = false /\
   validateMove (interpretMove "03H03B") g = Normal true g [] /\
   exists g', makeMove "03H03B" g = Normal tt g' [] /\
     Rules.cell (_layout g') 7 1 = 13 /\ _lastCaptured g' = Some 21)
  /\
  (let g := new_game (layout_of cannon_two_screens) in
   Rules.cell (_layout g) 7 7 = 13 /\ Rules.cell (_layout g) 7 1 = 21 /\
   Rules.pieces_between (_layout g) 7 7 7 1 = 2%nat /\
   Rules.piece_rule (_layout g) 7 7 7 1 = false /\
   validateMove (interpretMove "03H03B") g = Normal true g [] /\
   exists g', makeMove "03H03B" g = Normal tt g' [] /\
     Rules.cell (_layout g') 7 1 = 13 /\ _lastCaptured g' = Some 21).
Proof.
  split; cbv zeta.
  - do 5 (split; [vm_compute; reflexivity|]).
    exists (moved "03H03B" (new_game (layout_of cannon_no_screen))).
    repeat split; vm_compute; reflexivity.
  - do 5 (split; [vm_compute; reflexivity|]).
    exists (moved "03H03B" (new_game (layout_of cannon_two_screens))).
    repeat split; vm_compute; reflexivity.
Qed.

(** ** Decoding the notation *)

Lemma code_ascii_of n : 0 <= n < 256 -> code (ascii_of_N (Z.to_N n)) = n.
Proof.
  intros Hn. unfold code. rewrite N_ascii_embedding; lia.
Qed.

Lemma code_digit_char d : 0 <= d <= 9 -> code (digit_char d) = 48 + d.
Proof. intros Hd. apply code_ascii_of. lia. Qed.

Lemma code_file_char (lower : bool) k :
  0 <= k <= 25 -> code (file_char lower k) = (if lower then 97 else 65) + k.
Proof. intros Hk. apply code_ascii_of. destruct lower; lia. Qed.

Lemma upper_units_digit d : 0 <= d <= 9 -> upper_units (48 + d) = [48 + d].
Proof.
  intros Hd. unfold upper_units.
  repeat match goal with
         | |- context [?x <=? ?y] => destruct (Z.leb_spec x y); try lia
         | |- context [?x =? ?y] => destruct (Z.eqb_spec x y); try lia
         end; reflexivity.
Qed.

Lemma upper_units_file (lower : bool) k :
  0 <= k <= 25 -> upper_units ((if lower then 97 else 65) + k) = [65 + k].
Proof.
  intros Hk. unfold upper_units.
  destruct lower;
    repeat match goal with
           | |- context [?x <=? ?y] => destruct (Z.leb_spec x y); try lia
           | |- context [?x =? ?y] => destruct (Z.eqb_spec x y); try lia
           end; simpl; f_equal; lia.
Qed.

Lemma digit_char_white d : 0 <= d <= 9 -> is_white (digit_char d) = false.
Proof.
  intros Hd. unfold is_white. rewrite code_digit_char by assumption.
  repeat match goal with
         | |- context [?x <=? ?y] => destruct (Z.leb_spec x y); try lia
         | |- context [?x =? ?y] => destruct (Z.eqb_spec x y); try lia
         end; reflexivity.
Qed.

Lemma digit_val_digit d : 0 <= d <= 9 -> digit_val 10 (digit_char d) = Some d.
Proof.
  intros Hd. unfold digit_val. rewrite code_digit_char by assumption.
  destruct (Z.leb_spec 48 (48 + d)); [|lia].
  destruct (Z.leb_spec (48 + d) 57); [|lia]. simpl.
  destruct (Z.ltb_spec (48 + d - 48) 10); [|lia]. f_equal. lia.
Qed.

Lemma digit_char_cases d :
  0 <= d <= 9 ->
  digit_char d <> "-"%char /\ digit_char d <> "+"%char /\
  (d = 0 -> digit_char d = "0"%char) /\
  digit_char d <> "x"%char /\ digit_char d <> "X"%char.
Proof.
  intros Hd.
  assert (Hcases : d = 0 \/ d = 1 \/ d = 2 \/ d = 3 \/ d = 4 \/ d = 5 \/
                   d = 6 \/ d = 7 \/ d = 8 \/ d = 9) by lia.
  repeat destruct Hcases as [-> | Hcases]; try subst d;
    (repeat split; try discriminate; try reflexivity; lia).
Qed.

(** Two decimal digits parse to the number they write. *)
Lemma parseInt_two_digits a b :
  0 <= a <= 9 -> 0 <= b <= 9 ->
  parseInt (String (digit_char a) (String (digit_char b) "")) = Num (10 * a + b).
Proof.
  intros Ha Hb. unfold parseInt. cbn [trim_start].
  rewrite digit_char_white by assumption.
  destruct (digit_char_cases a Ha) as (Hm & Hp & _ & _ & _).
  destruct (digit_char_cases b Hb) as (_ & _ & _ & Hx & HX).
  assert (Hsign :
    match String (digit_char a) (String (digit_char b) "") with
    | String "-" r => (true, r)
    | String "+" r => (false, r)
    | _ => (false, String (digit_char a) (String (digit_char b) ""))
    end = (false, String (digit_char a) (String (digit_char b) ""))).
  { destruct (digit_char a) as [[] [] [] [] [] [] [] []];
      try reflexivity; contradiction. }
  rewrite Hsign.
  assert (Hradix :
    match String (digit_char a) (String (digit_char b) "") with
    | String "0" (String "x" r) => (16, r)
    | String "0" (String "X" r) => (16, r)
    | _ => (10, String (digit_char a) (String (digit_char b) ""))
    end = (10, String (digit_char a) (String (digit_char b) ""))).
  { destruct (digit_char b) as [[] [] [] [] [] [] [] []];
      try contradiction;
      destruct (digit_char a) as [[] [] [] [] [] [] [] []]; reflexivity. }
  rewrite Hradix. cbn [parse_digits].
  rewrite !digit_val_digit by assumption. cbn [default]. unfold id.
  f_equal. lia.
Qed.

Lemma toUpperCase_move_text a b (l1 : bool) k c d (l2 : bool) m :
  0 <= a <= 9 -> 0 <= b <= 9 -> 0 <= k <= 25 ->
  0 <= c <= 9 -> 0 <= d <= 9 -> 0 <= m <= 25 ->
  toUpperCase (move_text a b (file_char l1 k) c d (file_char l2 m)) =
  [48 + a; 48 + b; 65 + k; 48 + c; 48 + d; 65 + m].
Proof.
  intros Ha Hb Hk Hc Hd Hm. unfold move_text. cbn [toUpperCase].
  rewrite !code_digit_char, !code_file_char by assumption.
  rewrite !upper_units_digit, !upper_units_file by assumption.
  reflexivity.
Qed.

(** C7. A six-character move string made of two rank digits, a file
    letter, two rank digits and a file letter decodes to row 10 - rank and
    column letter - 'A' for each of its two squares, and the result is the
    same whether a file letter is written in lower or in upper case. *)
Theorem interpretMove_decodes_notation
    (a b : Z) (l1 : bool) (k : Z) (c d : Z) (l2 : bool) (m : Z) :
  0 <= a <= 9 -> 0 <= b <= 9 -> 0 <= k <= 25 ->
  0 <= c <= 9 -> 0 <= d <= 9 -> 0 <= m <= 25 ->
  interpretMove (move_text a b (file_char l1 k) c d (file_char l2 m)) =
    {| sr := Num (10 - (10 * a + b)); sc := Num k;
       er := Num (10 - (10 * c + d)); ec := Num m |}
  /\ interpretMove (move_text a b (file_char true k) c d (file_char true m)) =
     interpretMove (move_text a b (file_char false k) c d (file_char false m)).
Proof.
  intros Ha Hb Hk Hc Hd Hm.
  assert (Hdec : forall l1 l2,
    interpretMove (move_text a b (file_char l1 k) c d (file_char l2 m)) =
    {| sr := Num (10 - (10 * a + b)); sc := Num k;
       er := Num (10 - (10 * c + d)); ec := Num m |}).
  { intros x y. unfold interpretMove.
    rewrite toUpperCase_move_text by assumption.
    change (substring 0 2 (move_text a b (file_char x k) c d (file_char y m)))
      with (String (digit_char a) (String (digit_char b) "")).
    change (substring 3 5 (move_text a b (file_char x k) c d (file_char y m)))
      with (String (digit_char c) (String (digit_char d) "")).
    rewrite !parseInt_two_digits by assumption.
    unfold charCodeAt. simpl. f_equal; f_equal; lia. }
  split; [apply Hdec|]. rewrite !Hdec. reflexivity.
Qed.

Lemma interpretMove_decodes_notation_witness :
  interpretMove "03h10B" =
    {| sr := Num 7; sc := Num 7; er := Num 0; ec := Num 1 |}
  /\ interpretMove "03h10b" = interpretMove "03H10B".
Proof.
  split.
  - exact (proj1 (interpretMove_decodes_notation 0 3 true 7 1 0 false 1
                    ltac:(lia) ltac:(lia) ltac:(lia)
                    ltac:(lia) ltac:(lia) ltac:(lia))).
  - exact (proj2 (interpretMove_decodes_notation 0 3 true 7 1 0 false 1
                    ltac:(lia) ltac:(lia) ltac:(lia)
                    ltac:(lia) ltac:(lia) ltac:(lia))).
Defined.

(** ** The dump, line by line *)

Lemma append_assoc (s1 s2 s3 : string) :
  (s1 +:+ s2) +:+ s3 = s1 +:+ (s2 +:+ s3).
Proof.
  induction s1 as [|c s1 IH]; [reflexivity|].
  change (String c ((s1 +:+ s2) +:+ s3) = String c (s1 +:+ (s2 +:+ s3))).
  rewrite IH. reflexivity.
Qed.

Lemma append_nil_r (s : string) : s +:+ "" = s.
Proof.
  induction s as [|c s IH]; [reflexivity|].
  change (String c (s +:+ "") = String c s). rewrite IH. reflexivity.
Qed.

Lemma charAt_types v :
  0 <= v -> charAt _types (Num (Z.rem v 10)) = type_letter (v mod 10).
Proof.
  intros Hv. rewrite Z.rem_mod_nonneg by lia.
  pose proof (Z.mod_pos_bound v 10 ltac:(lia)) as Hm.
  assert (Hcases : v mod 10 = 0 \/ v mod 10 = 1 \/ v mod 10 = 2 \/
                   v mod 10 = 3 \/ v mod 10 = 4 \/ v mod 10 = 5 \/
                   v mod 10 = 6 \/ v mod 10 = 7 \/ v mod 10 = 8 \/
                   v mod 10 = 9) by lia.
  repeat destruct Hcases as [-> | Hcases]; try rewrite Hcases; reflexivity.
Qed.

(** The inner loop appends the squares of the files it visits. *)
Lemma toString_cols_run g i (todo : nat) j result :
  0 <= i <= 9 -> 0 <= j -> j + Z.of_nat todo <= 9 ->
  encoded_board (_layout g) ->
  toString_cols i todo j result g =
  Normal (result +:+
          join (map (fun file => square_text (Rules.cell (_layout g) i file))
                    (seqZ j (Z.of_nat todo)))) g [].
Proof.
  intros Hi Hj Hend Hboard. revert j result Hj Hend.
  induction todo as [|todo IH]; intros j result Hj Hend.
  - simpl. unfold ret. rewrite append_nil_r. reflexivity.
  - cbn [toString_cols]. unfold bind. rewrite read_cell_run.
    destruct (Hboard i j Hi ltac:(lia)) as (v & Hsq & Hv).
    assert (Hcell : Rules.cell (_layout g) i j = v)
      by (unfold Rules.cell; rewrite Hsq; reflexivity).
    pose proof Hsq as Hsq'. unfold square in Hsq'.
    destruct (row_at (_layout g) (Num i)) as [rw|]; [|discriminate Hsq'].
    simpl in Hsq'. rewrite Hsq'. rewrite IH by lia.
    rewrite (seqZ_cons j (Z.of_nat (S todo))) by lia.
    replace (Z.pred (Z.of_nat (S todo))) with (Z.of_nat todo) by lia.
    replace (Z.succ j) with (j + 1) by lia.
    cbn [map join foldr]. fold (join (map (fun file =>
      square_text (Rules.cell (_layout g) i file)) (seqZ (j + 1) (Z.of_nat todo)))).
    f_equal. rewrite Hcell.
    unfold square_text, team_mark. cbn [floor_div10 rem10 strict_eq strict_ne].
    unfold strict_eq, strict_ne.
    rewrite negb_involutive, charAt_types by assumption.
    cbn [to_string]. rewrite !append_assoc. reflexivity.
Qed.

(** The outer loop appends the lines of the rows it visits. *)
Lemma toString_rows_run g (todo : nat) i result :
  0 <= i -> i + Z.of_nat todo <= 10 ->
  encoded_board (_layout g) ->
  toString_rows todo i result g =
  Normal (result +:+
          join (map (fun r => rank_line (_layout g) (10 - r))
                    (seqZ i (Z.of_nat todo)))) g [].
Proof.
  intros Hi Hend Hboard. revert i result Hi Hend.
  induction todo as [|todo IH]; intros i result Hi Hend.
  - simpl. unfold ret. rewrite append_nil_r. reflexivity.
  - cbn [toString_rows]. unfold bind.
    rewrite (toString_cols_run g i 9 0) by (try assumption; lia).
    rewrite IH by lia. rewrite (seqZ_cons i (Z.of_nat (S todo))) by lia.
    replace (Z.pred (Z.of_nat (S todo))) with (Z.of_nat todo) by lia.
    replace (Z.succ i) with (i + 1) by lia.
    cbn [map join foldr]. fold (join (map (fun r =>
      rank_line (_layout g) (10 - r)) (seqZ (i + 1) (Z.of_nat todo)))).
    f_equal. unfold rank_line.
    replace (10 - (10 - i)) with i by lia.
    assert (Hlabel : (if i =? 0 then " " else " 0") +:+ to_string (Num (10 - i))
                     = " " +:+ two_digits (10 - i)).
    { unfold two_digits. destruct (Z.eqb_spec i 0) as [->|Hne].
      - reflexivity.
      - destruct (Z.ltb_spec (10 - i) 10); [|lia]. reflexivity. }
    rewrite !append_assoc. rewrite <- (append_assoc _ (to_string _)).
    rewrite Hlabel. rewrite !append_assoc. reflexivity.
Qed.

Lemma Z_to_string_digit t :
  1 <= t <= 9 -> Z_to_string t = String (digit_char t) "".
Proof.
  intros Ht.
  assert (Hcases : t = 1 \/ t = 2 \/ t = 3 \/ t = 4 \/ t = 5 \/
                   t = 6 \/ t = 7 \/ t = 8 \/ t = 9) by lia.
  repeat destruct Hcases as [-> | Hcases]; try subst t; reflexivity.
Qed.

(** C9. On a board whose 10 x 9 squares all hold piece encodings,
    [toString] returns, without touching the game or the console, the
    lines of ranks 10 down to 1 followed by the line of file letters A to
    I.  Each square is a blank, the team and the type letter: a square of
    team 1 to 9 shows the team digit and the letter of -RNCGEPKS that its
    type selects (R, N, C, G, E, P, K, S for types 1 to 8), and a square
    of team 0 shows the placeholder "-" where the team digit would be, so
    the empty square reads "--". *)
Theorem toString_dumps_board (g : Game) :
  encoded_board (_layout g) ->
  toString g = Normal (board_text (_layout g)) g []
  /\ (forall team type, 1 <= team <= 9 -> 0 <= type <= 9 ->
        square_text (team * 10 + type) =
        String " " (String (digit_char team) (type_letter type)))
  /\ (forall type, 0 <= type <= 9 ->
        square_text type = String " " (String "-" (type_letter type))).
Proof.
  intros Hboard. split; [|split].
  - unfold toString, bind.
    rewrite (toString_rows_run g 10 0 "") by (try assumption; lia).
    unfold ret. simpl app. f_equal.
  - intros team type Ht Hk. unfold square_text, team_mark.
    replace ((team * 10 + type) / 10) with team
      by (apply Z.div_unique with (r := type); lia).
    replace ((team * 10 + type) mod 10) with type
      by (apply Z.mod_unique with (q := team); lia).
    destruct (Z.eqb_spec team 0); [lia|].
    rewrite Z_to_string_digit by assumption. reflexivity.
  - intros type Hk. unfold square_text, team_mark.
    rewrite Z.div_small, Z.mod_small by lia. reflexivity.
Qed.

Lemma opening_encoded : encoded_board (_layout opening_game).
Proof.
  intros i j Hi Hj.
  assert (Hi' : i = 0 \/ i = 1 \/ i = 2 \/ i = 3 \/ i = 4 \/ i = 5 \/
                i = 6 \/ i = 7 \/ i = 8 \/ i = 9) by lia.
  assert (Hj' : j = 0 \/ j = 1 \/ j = 2 \/ j = 3 \/ j = 4 \/ j = 5 \/
                j = 6 \/ j = 7 \/ j = 8) by lia.
  repeat destruct Hi' as [-> | Hi']; try subst i;
    repeat destruct Hj' as [-> | Hj']; try subst j;
    (eexists; split; [vm_compute; reflexivity|lia]).
Defined.

Lemma toString_dumps_board_witness :
  encoded_board (_layout opening_game) /\
  toString opening_game =
    Normal (board_text (_layout opening_game)) opening_game [].
Proof.
  split; [exact opening_encoded|].
  exact (proj1 (toString_dumps_board opening_game opening_encoded)).
Defined.

(** ** What an accepted move does to the squares *)

Lemma accepted_start_piece moveStr g :
  accepted moveStr g ->
  exists piece,
    square (_layout g) (sr (interpretMove moveStr)) (sc (interpretMove moveStr))
      = Some piece /\ piece / 10 = _currentPlayer g.
Proof.
  intros Hacc. destruct (accepted_inv _ _ Hacc) as (_ & _ & _ & Hstart & _).
  cbv zeta in Hstart.
  destruct (square _ _ _) as [piece|]; [|discriminate Hstart].
  exists piece. split; [reflexivity|]. injection Hstart as Hstart. exact Hstart.
Qed.

(** The squares after the two stores of [makeMove]. *)
Lemma moved_square moveStr g r c :
  accepted moveStr g -> _currentPlayer g <> 0 ->
  let move := interpretMove moveStr in
  square (_layout (moved moveStr g)) r c =
  if decide (sr move = r /\ sc move = c) then Some 0
  else if decide (er move = r /\ ec move = c)
       then square (_layout g) (sr move) (sc move)
       else square (_layout g) r c.
Proof.
  intros Hacc Hcp. cbv zeta.
  destruct (accepted_inv _ _ Hacc) as (_ & Hs & He & _ & _). cbv zeta in Hs, He.
  unfold moved. cbn [_layout].
  rewrite square_put_row by (apply row_at_put_some; exact Hs).
  destruct (decide (sr (interpretMove moveStr) = r /\
                    sc (interpretMove moveStr) = c)); [reflexivity|].
  rewrite square_put_row by exact He. reflexivity.
Qed.

(** An accepted move of a current player other than 0 relocates exactly
    one piece: afterwards the end square holds what the start square
    held, the start square holds 0, every other square reads as before,
    [_lastCaptured] is what the end square held, [_lastMove] is the move
    string as given, and the number of rows and the winner are as they
    were. *)
Theorem makeMove_relocates_one_piece (moveStr : string) (g : Game) :
  accepted moveStr g ->
  _currentPlayer g <> 0 ->
  let move := interpretMove moveStr in
  exists piece g',
    square (_layout g) (sr move) (sc move) = Some piece /\
    makeMove moveStr g = Normal tt g' [] /\
    square (_layout g') (er move) (ec move) = Some piece /\
    square (_layout g') (sr move) (sc move) = Some 0 /\
    (forall r c, ~ (sr move = r /\ sc move = c) ->
                 ~ (er move = r /\ ec move = c) ->
                 square (_layout g') r c = square (_layout g) r c) /\
    _lastCaptured g' = square (_layout g) (er move) (ec move) /\
    _lastMove g' = moveStr /\
    length (_layout g') = length (_layout g) /\
    _winner g' = _winner g.
Proof.
  intros Hacc Hcp. cbv zeta.
  destruct (accepted_start_piece _ _ Hacc) as (piece & Hpiece & _).
  pose proof (accepted_leaves_start _ _ Hacc Hcp) as Hdiff.
  exists piece, (moved moveStr g).
  split; [exact Hpiece|]. split; [apply accepted_makeMove; exact Hacc|].
  split; [|split; [|split; [|split; [|split; [|split]]]]].
  - rewrite (moved_square _ _ _ _ Hacc Hcp). cbv zeta.
    rewrite decide_False by exact Hdiff.
    rewrite decide_True by auto. exact Hpiece.
  - rewrite (moved_square _ _ _ _ Hacc Hcp). cbv zeta.
    rewrite decide_True by auto. reflexivity.
  - intros r c Hs He. rewrite (moved_square _ _ _ _ Hacc Hcp). cbv zeta.
    rewrite decide_False by exact Hs. rewrite decide_False by exact He.
    reflexivity.
  - reflexivity.
  - reflexivity.
  - unfold moved. cbn [_layout]. rewrite !put_length. reflexivity.
  - reflexivity.
Qed.

Lemma makeMove_relocates_one_piece_witness :
  accepted "03B10B" opening_game /\
  exists g',
    makeMove "03B10B" opening_game = Normal tt g' [] /\
    square (_layout g') (Num 0) (Num 1) = Some 13 /\
    square (_layout g') (Num 7) (Num 1) = Some 0 /\
    _lastCaptured g' = Some 22.
Proof.
  assert (Hacc : accepted "03B10B" opening_game) by (vm_compute; reflexivity).
  split; [exact Hacc|].
  destruct (makeMove_relocates_one_piece "03B10B" opening_game Hacc
              ltac:(discriminate))
    as (piece & g' & Hpiece & Hrun & Hend & Hstart & _ & Hcap & _).
  exists g'. split; [exact Hrun|].
  assert (Hp : piece = 13).
  { vm_compute in Hpiece. injection Hpiece as <-. reflexivity. }
  subst piece. split; [exact Hend|]. split; [exact Hstart|].
  rewrite Hcap. vm_compute. reflexivity.
Defined.

(** ** How a call to [makeMove] can end *)

(** [makeMove] is all or nothing.  It ends in one of three ways: the move
    is accepted and applied in full with nothing on the console; it is
    turned down, the game is untouched and the console gets the reason
    and "Move not accepted."; or an exception of [validateMove] leaves
    it, with the game untouched and nothing on the console.  The game
    changes only if the move was accepted. *)
Theorem makeMove_all_or_nothing (moveStr : string) (g : Game) :
  (accepted moveStr g /\ makeMove moveStr g = Normal tt (moved moveStr g) [])
  \/ (is_accepted moveStr g = false /\
      ((exists reason,
          makeMove moveStr g = Normal tt g [reason; "Move not accepted."] /\
          (reason = "You cannot move this piece." \/ reason = "not accepted"))
       \/ (exists e, makeMove moveStr g = Abrupt e g [] /\
             (e = TypeError \/
              e = Error (illegal_move_message (interpretMove moveStr)))))).
Proof.
  rewrite makeMove_run. unfold accepted, is_accepted.
  rewrite validateMove_run.
  destruct (bounds_violated _).
  { right. split; [reflexivity|]. right. eexists. split; [reflexivity|]. auto. }
  destruct (row_at (_layout g) (sr _)).
  2:{ right. split; [reflexivity|]. right. eexists. split; [reflexivity|]. auto. }
  destruct (strict_ne _ _).
  { right. split; [reflexivity|]. left. eexists. split; [reflexivity|]. auto. }
  destruct (row_at (_layout g) (er _)).
  2:{ right. split; [reflexivity|]. right. eexists. split; [reflexivity|]. auto. }
  destruct (target_ok _ _ _).
  - left. split; reflexivity.
  - right. split; [reflexivity|]. left. eexists. split; [reflexivity|]. auto.
Qed.

(** ** The bounds test of [validateMove] *)

(** The product test [x * (x - hi) > 0] is the range test its comment
    announces: for a number it fails exactly on [0 <= x <= hi], and [NaN]
    passes it.  So [validateMove] throws its "Illegal Move" error exactly
    when a decoded coordinate is a number off the board, and never for a
    coordinate that did not parse. *)
Theorem bounds_test_is_range_test (move : Move) (g : Game) :
  (forall z hi, 0 <= hi -> outside (Num z) hi = false <-> 0 <= z <= hi)
  /\ (forall hi, outside NaN hi = false)
  /\ (validateMove move g = Abrupt (Error (illegal_move_message move)) g []
      <-> off_board move).
Proof.
  split; [|split].
  - intros z hi Hhi. unfold outside. simpl. rewrite Z.ltb_ge. nia.
  - reflexivity.
  - rewrite <- bounds_violated_spec, validateMove_run.
    destruct (bounds_violated move); [split; reflexivity|].
    split; [|discriminate].
    destruct (row_at (_layout g) (sr move)); [|discriminate].
    destruct (strict_ne _ _); [discriminate|].
    destruct (row_at (_layout g) (er move)); [|discriminate].
    destruct (target_ok _ _ _); discriminate.
Qed.

(** A move string whose start rank does not parse (the empty string, a
    rank that is not a number) never reaches the ownership test: with no
    number off the board [makeMove] ends with a [TypeError] from reading
    [this._layout[NaN][...]], otherwise with the "Illegal Move" error; in
    both cases the game is untouched and nothing is logged. *)
Theorem makeMove_unparsed_start_rank_throws (moveStr : string) (g : Game) :
  sr (interpretMove moveStr) = NaN ->
  exists e, makeMove moveStr g = Abrupt e g [] /\
    (bounds_violated (interpretMove moveStr) = false -> e = TypeError).
Proof.
  intros Hsr. rewrite makeMove_run, validateMove_run.
  destruct (bounds_violated _).
  - eexists. split; [reflexivity|]. discriminate.
  - rewrite Hsr. simpl. eexists. split; reflexivity.
Qed.

Lemma makeMove_unparsed_start_rank_throws_witness :
  sr (interpretMove "") = NaN /\
  makeMove "" opening_game = Abrupt TypeError opening_game [].
Proof.
  split; [reflexivity|].
  destruct (makeMove_unparsed_start_rank_throws "" opening_game eq_refl)
    as (e & Hrun & He).
  rewrite Hrun. rewrite (He eq_refl). reflexivity.
Defined.

Lemma bounds_test_is_range_test_witness :
  (outside (Num 9) 9 = false <-> 0 <= 9 <= 9) /\
  (outside (Num 10) 9 = false <-> 0 <= 10 <= 9).
Proof.
  split.
  - exact (proj1 (bounds_test_is_range_test
                    (mkMove NaN NaN NaN NaN) opening_game) 9 9 ltac:(lia)).
  - exact (proj1 (bounds_test_is_range_test
                    (mkMove NaN NaN NaN NaN) opening_game) 10 9 ltac:(lia)).
Defined.

(** ** A move string without its end file *)



(** ** One level of history *)

Lemma recallMove_no_record g :
  _lastMove g = "" ->
  recallMove g = Normal tt g ["There is no reverse available."].
Proof. intros H. rewrite recallMove_run, H. reflexivity. Qed.

(** [recallMove] right after an accepted move. *)
Lemma recallMove_moved moveStr g :
  accepted moveStr g -> _currentPlayer g <> 0 ->
  recallMove (moved moveStr g) =
    Normal tt {| _layout := _layout g;
                 _currentPlayer := _currentPlayer g;
                 _lastMove := "";
                 _lastCaptured := Some 0;
                 _winner := _winner g |} [].
Proof.
  intros Hacc Hcp.
  pose proof (accepted_nonempty _ _ Hacc) as Hne.
  pose proof (accepted_leaves_start _ _ Hacc Hcp) as Hdiff.
  destruct (accepted_inv _ _ Hacc) as (_ & Hs & He & _ & _). cbv zeta in Hs, He.
  rewrite recallMove_run.
  change (_lastMove (moved moveStr g)) with moveStr.
  destruct (String.eqb_spec moveStr ""); [contradiction|]. cbv zeta.
  revert Hs He Hdiff. unfold recalled.
  change (_lastMove (moved moveStr g)) with moveStr.
  unfold moved. cbn [_layout _lastCaptured _currentPlayer _winner].
  generalize (interpretMove moveStr). intros move Hs He Hdiff.
  destruct (row_at_put_some _ (sr move) (sc move) (Some 0) _
              (row_at_put_some _ (er move) (ec move)
                 (square (_layout g) (sr move) (sc move)) _ He)) as [rw2 ->].
  destruct (row_at_put_some _ (sr move) (sc move) (Some 0) _
              (row_at_put_some _ (er move) (ec move)
                 (square (_layout g) (sr move) (sc move)) _ Hs)) as [rw1 ->].
  f_equal. f_equal.
  - apply recall_restores_layout; assumption.
  - destruct (Z.eqb_spec (_currentPlayer g) 2) as [->|Hn2]; [reflexivity|].
    destruct (Z.eqb_spec (_currentPlayer g + 1) 1); lia.
Qed.

(** The class keeps one level of history.  With no move on record, as in
    a game fresh from the constructor, [recallMove] changes nothing and
    writes "There is no reverse available."; and after an accepted move
    was taken back, a second [recallMove] is such a no-op: a move cannot
    be reversed more than once. *)
Theorem recallMove_reverses_at_most_once (g : Game) :
  (_lastMove g = "" ->
     recallMove g = Normal tt g ["There is no reverse available."])
  /\ (forall layout,
        recallMove (new_game layout) =
          Normal tt (new_game layout) ["There is no reverse available."])
  /\ (forall moveStr, accepted moveStr g -> _currentPlayer g <> 0 ->
        exists g1 g2,
          makeMove moveStr g = Normal tt g1 [] /\
          recallMove g1 = Normal tt g2 [] /\
          recallMove g2 = Normal tt g2 ["There is no reverse available."]).
Proof.
  split; [apply recallMove_no_record|]. split.
  - intros layout. apply recallMove_no_record. reflexivity.
  - intros moveStr Hacc Hcp. eexists. eexists.
    split; [apply accepted_makeMove; exact Hacc|].
    split; [apply recallMove_moved; assumption|].
    apply recallMove_no_record. reflexivity.
Qed.

Lemma recallMove_reverses_at_most_once_witness :
  recallMove opening_game =
    Normal tt opening_game ["There is no reverse available."]
  /\ exists g1 g2,
       makeMove "03H03E" opening_game = Normal tt g1 [] /\
       recallMove g1 = Normal tt g2 [] /\
       recallMove g2 = Normal tt g2 ["There is no reverse available."].
Proof.
  destruct (recallMove_reverses_at_most_once opening_game)
    as (Hempty & _ & Htwice).
  split; [apply Hempty; reflexivity|].
  apply Htwice; [vm_compute; reflexivity|discriminate].
Defined.

(** ** The end of the game *)

(** [isGameOver] and [getWinner] agree and only read: [isGameOver] is
    true exactly when [_winner] is not -1, [getWinner] returns [_winner]
    and writes "The game has not ended." exactly when [isGameOver] is
    false; a game fresh from the constructor is not over. *)
Theorem getWinner_agrees_with_isGameOver (g : Game) :
  exists over : bool,
    isGameOver g = Normal over g [] /\
    (over = true <-> _winner g <> -1) /\
    getWinner g =
      Normal (_winner g) g
             (if over then [] else ["The game has not ended."]) /\
    (forall layout, isGameOver (new_game layout)
                    = Normal false (new_game layout) []).
Proof.
  exists (negb (_winner g =? -1)).
  split; [reflexivity|]. split; [|split].
  - rewrite negb_true_iff, Z.eqb_neq. reflexivity.
  - unfold getWinner, bind, this, ret, console_log.
    destruct (_winner g =? -1); reflexivity.
  - reflexivity.
Qed.

(** ** Invariants of a session *)

Lemma outside_false_range z hi :
  0 <= hi -> outside (Num z) hi = false -> 0 <= z <= hi.
Proof.
  intros Hhi H. unfold outside in H. simpl in H.
  apply Z.ltb_ge in H. nia.
Qed.

Lemma bounds_ok_inv move :
  bounds_violated move = false ->
  (forall z, sr move = Num z -> 0 <= z <= 9) /\
  (forall z, er move = Num z -> 0 <= z <= 9) /\
  (forall z, sc move = Num z -> 0 <= z <= 8) /\
  (forall z, ec move = Num z -> 0 <= z <= 8).
Proof.
  unfold bounds_violated. rewrite !orb_false_iff.
  intros [[[H1 H2] H3] H4].
  split; [|split; [|split]]; intros z Hz; rewrite Hz in *;
    eapply outside_false_range; try eassumption; lia.
Qed.

Lemma new_game_sound layout :
  length layout = 10%nat -> encoded_board layout -> sound (new_game layout).
Proof.
  intros Hlen Hboard. split; [exact Hlen|]. split; [exact Hboard|].
  split; left; reflexivity.
Qed.

Lemma team_nonneg piece p : piece / 10 = p -> 0 <= p -> 0 <= piece.
Proof.
  intros Hdiv Hp. pose proof (Z.div_mod piece 10 ltac:(lia)).
  pose proof (Z.mod_pos_bound piece 10 ltac:(lia)). lia.
Qed.

Lemma moved_sound moveStr g :
  sound g -> accepted moveStr g -> sound (moved moveStr g).
Proof.
  intros (Hlen & Hboard & Hcp & _) Hacc.
  assert (Hcp0 : _currentPlayer g <> 0) by (destruct Hcp; lia).
  destruct (accepted_start_piece _ _ Hacc) as (piece & Hpiece & Hteam).
  assert (Hpos : 0 <= piece)
    by (apply (team_nonneg _ _ Hteam); destruct Hcp; lia).
  pose proof (accepted_leaves_start _ _ Hacc Hcp0) as Hdiff.
  destruct (accepted_inv _ _ Hacc) as (Hbounds & Hs & He & _ & _).
  cbv zeta in Hbounds, Hs, He.
  split; [|split; [|split]].
  - unfold moved. cbn [_layout]. rewrite !put_length. exact Hlen.
  - intros i j Hi Hj. rewrite (moved_square _ _ _ _ Hacc Hcp0). cbv zeta.
    destruct (decide _); [exists 0; split; [reflexivity|lia]|].
    destruct (decide _); [exists piece; split; assumption|].
    apply Hboard; assumption.
  - rewrite moved_currentPlayer. destruct Hcp as [-> | ->]; simpl; auto.
  - right. change (_lastMove (moved moveStr g)) with moveStr. cbv zeta.
    split; [exact Hbounds|].
    split; [unfold moved; cbn [_layout]; do 2 apply row_at_put_some; exact Hs|].
    split; [unfold moved; cbn [_layout]; do 2 apply row_at_put_some; exact He|].
    split.
    + exists piece. split; [|exact Hpos].
      rewrite (moved_square _ _ _ _ Hacc Hcp0). cbv zeta.
      rewrite decide_False by exact Hdiff.
      rewrite decide_True by auto. exact Hpiece.
    + intros z Hz. change (_lastCaptured (moved moveStr g))
        with (square (_layout g) (er (interpretMove moveStr))
                     (ec (interpretMove moveStr))).
      destruct He as [rw He].
      apply row_at_lt in He as (r & Hr & Hr0 & Hlt & _).
      destruct (bounds_ok_inv _ Hbounds) as (_ & _ & _ & Hecb).
      rewrite Hr, Hz. apply Hboard; [lia|]. apply Hecb. exact Hz.
Qed.

Lemma recalled_sound g :
  sound g -> _lastMove g <> "" -> sound (recalled g).
Proof.
  intros (Hlen & Hboard & Hcp & Hrec) Hne.
  destruct Hrec as [Hrec|Hrec]; [contradiction|]. cbv zeta in Hrec.
  destruct Hrec as (Hbounds & Hs & He & (p & Hp & Hp0) & Hcap).
  split; [|split; [|split]].
  - unfold recalled. cbn [_layout]. rewrite !put_length. exact Hlen.
  - intros i j Hi Hj. unfold recalled. cbn [_layout].
    rewrite square_put_row by (apply row_at_put_some; exact He).
    destruct (decide _) as [[_ Hj']|_].
    { destruct (Hcap j Hj') as (v & Hv & Hv0). exists v. split; assumption. }
    rewrite square_put_row by exact Hs.
    destruct (decide _); [exists p; split; assumption|].
    apply Hboard; assumption.
  - unfold recalled. cbn [_currentPlayer].
    destruct Hcp as [-> | ->]; simpl; auto.
  - left. reflexivity.
Qed.

Lemma run_call_sound c g : sound g -> sound (run_call c g).
Proof.
  intros Hsound. destruct c as [moveStr|]; unfold run_call.
  - rewrite makeMove_final_game.
    destruct (is_accepted moveStr g) eqn:Hacc; [|exact Hsound].
    apply moved_sound; [exact Hsound|]. apply is_accepted_spec. exact Hacc.
  - rewrite recallMove_run.
    destruct (String.eqb_spec (_lastMove g) ""); [exact Hsound|]. cbv zeta.
    destruct (row_at _ (er _)); [|exact Hsound].
    destruct (row_at _ (sr _)); [|exact Hsound].
    apply recalled_sound; assumption.
Qed.

Lemma run_calls_sound cs g : sound g -> sound (run_calls cs g).
Proof.
  revert g. induction cs as [|c cs IH]; intros g Hsound; [exact Hsound|].
  apply IH. apply run_call_sound. exact Hsound.
Qed.

Lemma run_call_winner c g : _winner (run_call c g) = _winner g.
Proof.
  destruct c as [moveStr|]; unfold run_call.
  - rewrite makeMove_final_game. destruct (is_accepted moveStr g); reflexivity.
  - rewrite recallMove_run.
    destruct (String.eqb (_lastMove g) ""); [reflexivity|]. cbv zeta.
    destruct (row_at _ (er _)); [|reflexivity].
    destruct (row_at _ (sr _)); reflexivity.
Qed.

Lemma run_calls_winner cs g : _winner (run_calls cs g) = _winner g.
Proof.
  revert g. induction cs as [|c cs IH]; intros g; [reflexivity|].
  simpl. rewrite IH. apply run_call_winner.
Qed.

Lemma toString_run g :
  encoded_board (_layout g) -> toString g = Normal (board_text (_layout g)) g [].
Proof.
  intros Hboard. unfold toString, bind.
  rewrite (toString_rows_run g 10 0 "") by (try assumption; lia).
  unfold ret. simpl app. f_equal.
Qed.

(** Whatever sequence of [makeMove] and [recallMove] calls a user makes
    on a game built by the constructor from a ten-row layout whose 90
    squares hold piece encodings, with whatever strings, and carrying on
    after rejections and exceptions: the layout keeps its ten rows, every
    square of the board still holds a piece encoding, the current player
    is 1 or 2, and [toString] returns the dump of the board instead of
    throwing. *)
Theorem calls_keep_the_board_sound (layout : list row) (cs : list call) :
  length layout = 10%nat ->
  encoded_board layout ->
  let g := run_calls cs (new_game layout) in
  length (_layout g) = 10%nat /\
  encoded_board (_layout g) /\
  (_currentPlayer g = 1 \/ _currentPlayer g = 2) /\
  toString g = Normal (board_text (_layout g)) g [].
Proof.
  intros Hlen Hboard. cbv zeta.
  destruct (run_calls_sound cs _ (new_game_sound layout Hlen Hboard))
    as (Hlen' & Hboard' & Hcp & _).
  split; [exact Hlen'|]. split; [exact Hboard'|]. split; [exact Hcp|].
  apply toString_run. exact Hboard'.
Qed.

Lemma calls_keep_the_board_sound_witness :
  length (layout_of opening) = 10%nat /\
  encoded_board (layout_of opening) /\
  let g := run_calls sample_calls (new_game (layout_of opening)) in
  length (_layout g) = 10%nat /\
  encoded_board (_layout g) /\
  (_currentPlayer g = 1 \/ _currentPlayer g = 2) /\
  toString g = Normal (board_text (_layout g)) g [].
Proof.
  split; [reflexivity|]. split; [exact opening_encoded|].
  exact (calls_keep_the_board_sound (layout_of opening) sample_calls
           eq_refl opening_encoded).
Defined.

(** No call ends the game: [makeMove] and [recallMove] never write
    [_winner], so after any sequence of calls it has the value it had,
    and a game built by the constructor is never over, whatever is
    played. *)
Theorem no_call_ends_the_game (cs : list call) (g : Game) :
  _winner (run_calls cs g) = _winner g
  /\ (forall layout,
        isGameOver (run_calls cs (new_game layout)) =
          Normal false (run_calls cs (new_game layout)) []).
Proof.
  split; [apply run_calls_winner|].
  intros layout. unfold isGameOver, bind, this, ret. simpl.
  rewrite run_calls_winner. reflexivity.
Qed.

(** ** The dump of a layout that is not a full board *)

Lemma toString_cols_returns g i todo j result :
  is_Some (row_at (_layout g) (Num i)) ->
  exists s, toString_cols i todo j result g = Normal s g [].
Proof.
  intros [rw Hrow]. revert j result.
  induction todo as [|todo IH]; intros j result.
  - eexists. reflexivity.
  - cbn [toString_cols]. unfold bind. rewrite read_cell_run, Hrow.
    match goal with
    | |- context [toString_cols i todo ?j' ?r' g] =>
        destruct (IH j' r') as [s ->]
    end.
    eexists. reflexivity.
Qed.

Lemma toString_cols_no_row g i todo j result :
  row_at (_layout g) (Num i) = None ->
  toString_cols i (S todo) j result g = Abrupt TypeError g [].
Proof.
  intros Hrow. cbn [toString_cols]. unfold bind.
  rewrite read_cell_run, Hrow. reflexivity.
Qed.

Lemma row_at_nat (layout : list row) i :
  0 <= i -> row_at layout (Num i) = layout !! Z.to_nat i.
Proof.
  intros Hi. simpl. destruct (Z.ltb_spec i 0); [lia|reflexivity].
Qed.

Lemma toString_rows_returns g todo i result :
  0 <= i -> i + Z.of_nat todo <= Z.of_nat (length (_layout g)) ->
  exists s, toString_rows todo i result g = Normal s g [].
Proof.
  revert i result. induction todo as [|todo IH]; intros i result Hi Hend.
  - eexists. reflexivity.
  - cbn [toString_rows]. unfold bind.
    assert (Hrow : is_Some (row_at (_layout g) (Num i))).
    { rewrite row_at_nat by assumption. apply lookup_lt_is_Some. lia. }
    match goal with
    | |- context [toString_cols i 9 0 ?r' g] =>
        destruct (toString_cols_returns g i 9 0 r' Hrow) as [s ->]
    end.
    match goal with
    | |- context [toString_rows todo ?i' ?r' g] =>
        destruct (IH i' r' ltac:(lia) ltac:(lia)) as [s' ->]
    end.
    eexists. reflexivity.
Qed.

Lemma toString_rows_throws g todo i result :
  0 <= i -> i <= Z.of_nat (length (_layout g)) ->
  Z.of_nat (length (_layout g)) < i + Z.of_nat todo ->
  toString_rows todo i result g = Abrupt TypeError g [].
Proof.
  revert i result. induction todo as [|todo IH]; intros i result Hi Hle Hend.
  - lia.
  - cbn [toString_rows]. unfold bind.
    destruct (Z.eq_dec i (Z.of_nat (length (_layout g)))) as [Heq|Hne].
    + rewrite toString_cols_no_row; [reflexivity|].
      rewrite row_at_nat by assumption. apply lookup_ge_None. lia.
    + assert (Hrow : is_Some (row_at (_layout g) (Num i))).
      { rewrite row_at_nat by assumption. apply lookup_lt_is_Some. lia. }
      match goal with
      | |- context [toString_cols i 9 0 ?r' g] =>
          destruct (toString_cols_returns g i 9 0 r' Hrow) as [s ->]
      end.
      rewrite IH by lia. reflexivity.
Qed.

(** [toString] reads ten rows and nothing checks that they are there: on
    a layout with fewer than ten rows it ends with the [TypeError] of
    reading a square of the first missing row, and on a layout with ten
    rows or more it returns a string whatever the rows hold; in both
    cases the game is untouched and nothing is logged. *)
Theorem toString_needs_ten_rows (g : Game) :
  ((length (_layout g) < 10)%nat -> toString g = Abrupt TypeError g [])
  /\ ((10 <= length (_layout g))%nat ->
      exists s, toString g = Normal s g []).
Proof.
  split; intros Hlen; unfold toString, bind.
  - rewrite toString_rows_throws by lia. reflexivity.
  - destruct (toString_rows_returns g 10 0 "" ltac:(lia) ltac:(lia)) as [s ->].
    eexists. reflexivity.
Qed.

Lemma toString_needs_ten_rows_witness :
  toString (new_game (layout_of [[11; 12]; [0; 0]])) =
    Abrupt TypeError (new_game (layout_of [[11; 12]; [0; 0]])) []
  /\ exists s, toString opening_game = Normal s opening_game [].
Proof.
  split.
  - apply (proj1 (toString_needs_ten_rows
                    (new_game (layout_of [[11; 12]; [0; 0]])))).
    simpl. lia.
  - apply (proj2 (toString_needs_ten_rows opening_game)). simpl. lia.
Defined.

(** ** Characters after the sixth *)

Lemma substring_append n m s t :
  (n + m <= String.length s)%nat ->
  String.substring n m (s +:+ t) = String.substring n m s.
Proof.
  revert n m. induction s as [|c s IH]; intros n m Hlen.
  - simpl in Hlen. assert (n = 0%nat) by lia. assert (m = 0%nat) by lia.
    subst. destruct t; reflexivity.
  - change (String c s +:+ t) with (String c (s +:+ t)).
    destruct n as [|n].
    + destruct m as [|m]; [reflexivity|].
      cbn [String.substring]. f_equal. apply IH. simpl in Hlen. lia.
    + cbn [String.substring]. apply IH. simpl in Hlen. lia.
Qed.

Lemma toUpperCase_append s t :
  toUpperCase (s +:+ t) = (toUpperCase s ++ toUpperCase t)%list.
Proof.
  induction s as [|c s IH]; [reflexivity|].
  change (String c s +:+ t) with (String c (s +:+ t)).
  cbn [toUpperCase]. rewrite IH. apply app_assoc.
Qed.

Lemma upper_units_nonempty k : (1 <= length (upper_units k))%nat.
Proof.
  unfold upper_units.
  repeat match goal with
         | |- context [if ?b then _ else _] => destruct b
         end; simpl; lia.
Qed.

(** Upper-casing never shortens a string. *)
Lemma toUpperCase_length s :
  (String.length s <= length (toUpperCase s))%nat.
Proof.
  induction s as [|c s IH]; [reflexivity|].
  cbn [toUpperCase String.length]. rewrite length_app.
  pose proof (upper_units_nonempty (code c)). lia.
Qed.

(** Only the first six characters of a move string are decoded: a string
    of six characters or more decodes like itself followed by anything,
    so [validateMove] reaches the same verdict on both, while [makeMove]
    records the string in full as [_lastMove]. *)
Theorem interpretMove_ignores_tail (s t : string) (g : Game) :
  (6 <= String.length s)%nat ->
  interpretMove (s +:+ t) = interpretMove s
  /\ is_accepted (s +:+ t) g = is_accepted s g
  /\ (is_accepted s g = true ->
      _lastMove (final_game (makeMove (s +:+ t) g)) = s +:+ t).
Proof.
  intros Hlen.
  assert (Hdec : interpretMove (s +:+ t) = interpretMove s).
  { unfold interpretMove, substring.
    rewrite !substring_append by (simpl; lia).
    rewrite toUpperCase_append. unfold charCodeAt.
    pose proof (toUpperCase_length s) as Hup.
    rewrite !lookup_app_l by lia. reflexivity. }
  split; [exact Hdec|].
  assert (Hacc : is_accepted (s +:+ t) g = is_accepted s g)
    by (unfold is_accepted; rewrite Hdec; reflexivity).
  split; [exact Hacc|].
  intros Hs. rewrite makeMove_final_game, Hacc, Hs. reflexivity.
Qed.

Lemma interpretMove_ignores_tail_witness :
  interpretMove "03H03E and more" = interpretMove "03H03E"
  /\ is_accepted "03H03E and more" opening_game = true
  /\ _lastMove (final_game (makeMove "03H03E and more" opening_game))
     = "03H03E and more".
Proof.
  destruct (interpretMove_ignores_tail "03H03E" " and more" opening_game)
    as (Hdec & Hacc & Hlast); [simpl; lia|].
  split; [exact Hdec|].
  assert (Hs : is_accepted "03H03E" opening_game = true)
    by (vm_compute; reflexivity).
  split; [exact (eq_trans Hacc Hs)|]. exact (Hlast Hs).
Defined.
